(** * The combo configurator and the special-drinks cart path

    A shallow embedding of the selection logic of the two [ComboModal]
    components (the single-ice-field one and the four-slot one) and of
    [handleAddToCart] of [SpecialDrinksModal], with the properties that the
    design document states about them.

    Conventions.
    - A JS string is a [string]: the bytes of its UTF-8 encoding.
    - A JS number that holds a price is a binary64 [float]; stock counts and
      quantities are integers ([Z]).
    - [Product | null] is [option Product]; an object is always truthy, so
      [!x] on such a value is [x = None].
    - A handler returns the state it leaves behind together with the calls it
      made on its collaborators (cart, toast surface, dialog owner), in
      order. *)

From Stdlib Require Import ZArith String Ascii List Bool Floats Uint63 Lia.
From Stdlib Require Import DecimalString DecimalPos DecimalN.
From stdpp Require Import base list strings.

#[local] Set Warnings "-inexact-float".
#[local] Open Scope Z_scope.
#[local] Open Scope string_scope.

(** ** Strings *)

Module Js.

(** One byte of [String.prototype.toLowerCase] on UTF-8 text.  [lead] says
    that the previous byte was 0xC3, the lead byte of U+00C0..U+00FF. *)
Definition lowerByte (lead : bool) (c : ascii) : ascii :=
  let n := N_of_ascii c in
  if lead then
    if (128 <=? n)%N && (n <=? 158)%N && negb (n =? 151)%N
    then ascii_of_N (n + 32) else c
  else
    if (65 <=? n)%N && (n <=? 90)%N then ascii_of_N (n + 32) else c.

Fixpoint lowerFrom (lead : bool) (s : string) : string :=
  match s with
  | EmptyString => EmptyString
  | String c s' =>
      String (lowerByte lead c) (lowerFrom (N_of_ascii c =? 195)%N s')
  end.

(** [s.toLowerCase()], on Basic Latin and the Latin-1 Supplement (A-Z and
    U+00C0..U+00DE except the multiplication sign); every other character
    is left as it is.  This covers the alphabet of the keyword tables.  No
    proof below looks inside this function. *)
Definition toLowerCase (s : string) : string := lowerFrom false s.

(** [s.includes(searchString)] *)
Fixpoint includes (s searchString : string) : bool :=
  String.prefix searchString s ||
  match s with
  | EmptyString => false
  | String _ s' => includes s' searchString
  end.

(** [xs.some(f)] *)
Definition some {A} (f : A -> bool) (xs : list A) : bool := existsb f xs.

(** [ids.includes(x)] on an array of strings *)
Definition arrayIncludes (ids : list string) (x : string) : bool :=
  existsb (String.eqb x) ids.

(** [xs.filter((x, idx) => f(x, idx))]: the callback also gets the index. *)
Fixpoint filteriFrom {A} (start : nat) (f : A -> nat -> bool) (xs : list A)
  : list A :=
  match xs with
  | [] => []
  | x :: xs' =>
      if f x start then x :: filteriFrom (S start) f xs'
      else filteriFrom (S start) f xs'
  end.

Definition filteri {A} (f : A -> nat -> bool) (xs : list A) : list A :=
  filteriFrom 0 f xs.

(** [!x] and [x === null] for [x : T | null] with [T] an object type *)
Definition isNull {A} (x : option A) : bool :=
  match x with None => true | Some _ => false end.

(** The double that holds a (small) integer. *)
Definition number (z : Z) : float := PrimFloat.of_uint63 (Uint63.of_Z z).

(** [`${n}`] for a non-negative integer *)
Definition decimal (n : N) : string := NilZero.string_of_uint (N.to_uint n).

End Js.

(** ** The catalog *)

(** The declarations of [Product] and [Category] are in the shared schema;
    the records have the fields that the components read.  [salePrice] is
    only ever read through [Number(p.salePrice)] and the record holds that
    number. *)
Module Product.
Record t : Type := mk {
  id : string;
  name : string;
  salePrice : float;
  categoryId : string;
  isActive : bool;
  stock : Z;
  comboEligible : bool;
  isPrepared : bool
}.
End Product.

Module Category.
Record t : Type := mk {
  id : string;
  name : string;
  isActive : bool
}.
End Category.

Abbreviation Product := Product.t.
Abbreviation Category := Category.t.

(** ** Collaborators *)

Inductive ToastVariant : Type := Default | Destructive.

Record ToastMessage : Type := {
  title : string;
  description : string;
  variant : ToastVariant
}.

Record Totals : Type := { original : float; discounted : float }.


(** [selected?.id === product.id ? null : product], the argument that every
    product button passes to its [onSelect]. *)
Definition toggle (selected : option Product) (product : Product)
  : option Product :=
  match selected with
  | Some s => if String.eqb (Product.id s) (Product.id product)
              then None else Some product
  | None => Some product
  end.

(** The keyword table and the two energy-drink tests are the same text in
    both components. *)
Definition energeticoKeywords : list string :=
  ["energetico"; "energético"; "redbull"; "red bull"; "monster"; "tnt";
   "burn"; "fusion"; "energy"].

Definition isEnergetico (name : string) : bool :=
  let lowerName := Js.toLowerCase name in
  Js.some (fun keyword => Js.includes lowerName keyword) energeticoKeywords.

Definition has2L (p : Product) : bool :=
  Js.includes (Js.toLowerCase (Product.name p)) "2l".

(** ** The component with a single ice field *)

Module VariantA.

Inductive EnergeticoOption : Type := Opt2L | Opt5cans.

(** The argument of [addCombo]. *)
Record ComboRecord : Type := {
  combo_id : string;
  combo_destilado : Product;
  combo_energetico : Product;
  combo_energeticoQuantity : Z;
  combo_gelo : Product;
  combo_geloQuantity : Z;
  combo_discountPercent : Z;
  combo_originalTotal : float;
  combo_discountedTotal : float
}.

Inductive Call : Type :=
| toast (m : ToastMessage)
| addCombo (c : ComboRecord)
| onOpenChange (isOpen : bool).

(** The four [useState] cells. *)
Record Selection : Type := {
  selectedDestilado : option Product;
  selectedEnergetico : option Product;
  energeticoOption : EnergeticoOption;
  selectedGelo : option Product
}.

Definition initial : Selection :=
  {| selectedDestilado := None; selectedEnergetico := None;
     energeticoOption := Opt2L; selectedGelo := None |}.

Section Catalog.
Variable products : list Product.
Variable categories : list Category.

Definition destiladoKeywords : list string :=
  ["gin"; "whisky"; "whiskey"; "cachaça"; "cachaca"; "vodka"; "sake";
   "saque"; "rum"].

Definition isDestiladoCategory (c : Category) : bool :=
  Js.some (fun keyword =>
             Js.includes (Js.toLowerCase (Category.name c)) keyword)
          destiladoKeywords.

Definition destiladosCategoryIds : list string :=
  map Category.id (List.filter isDestiladoCategory categories).

Definition destilados : list Product :=
  List.filter (fun p =>
    Product.comboEligible p &&
    Product.isActive p &&
    (0 <? Product.stock p)%Z &&
    Js.arrayIncludes destiladosCategoryIds (Product.categoryId p))
  products.

Definition energeticos2L : list Product :=
  List.filter (fun p =>
    Product.comboEligible p &&
    Product.isActive p &&
    (0 <? Product.stock p)%Z &&
    isEnergetico (Product.name p) &&
    has2L p)
  products.

Definition energeticosCans : list Product :=
  List.filter (fun p =>
    Product.comboEligible p &&
    Product.isActive p &&
    (5 <=? Product.stock p)%Z &&
    isEnergetico (Product.name p) &&
    negb (has2L p))
  products.

Definition isLargeIceBag (name : string) : bool :=
  let lowerName := Js.toLowerCase name in
  Js.includes lowerName "kg" || Js.includes lowerName "saco" ||
  Js.includes lowerName "grande".

Definition gelos : list Product :=
  List.filter (fun p =>
    Product.comboEligible p &&
    Product.isActive p &&
    Js.includes (Js.toLowerCase (Product.name p)) "gelo" &&
    (if isLargeIceBag (Product.name p)
     then (1 <=? Product.stock p)%Z else (5 <=? Product.stock p)%Z))
  products.
End Catalog.

Definition energeticoQuantity (s : Selection) : Z :=
  match energeticoOption s with Opt2L => 1 | Opt5cans => 5 end.

Definition getGeloQuantity (gelo : option Product) : Z :=
  match gelo with
  | None => 5
  | Some g => if isLargeIceBag (Product.name g) then 1 else 5
  end.

Definition geloQuantity (s : Selection) : Z :=
  getGeloQuantity (selectedGelo s).

Definition calculateTotal (s : Selection) : Totals :=
  match selectedDestilado s, selectedEnergetico s, selectedGelo s with
  | Some destilado, Some energetico, Some gelo =>
      let destiladoPrice := Product.salePrice destilado in
      let energeticoPrice :=
        (Product.salePrice energetico * Js.number (energeticoQuantity s))%float in
      let geloPrice :=
        (Product.salePrice gelo * Js.number (geloQuantity s))%float in
      let original := (destiladoPrice + energeticoPrice + geloPrice)%float in
      let discounted := (original * 0.95)%float in
      {| original := original; discounted := discounted |}
  | _, _, _ => {| original := 0%float; discounted := 0%float |}
  end.

(** The guard of [calculateTotal] and [handleAddCombo], which is also what
    enables the confirm button: all three fields are set. *)
Definition isComplete (s : Selection) : bool :=
  negb (Js.isNull (selectedDestilado s) ||
        Js.isNull (selectedEnergetico s) ||
        Js.isNull (selectedGelo s)).

Definition resetSelections (s : Selection) : Selection :=
  {| selectedDestilado := None; selectedEnergetico := None;
     selectedGelo := None; energeticoOption := Opt2L |}.

Definition rejection : ToastMessage :=
  {| title := "Selecione todos os itens";
     description :=
       "Escolha um destilado, um energetico e o gelo para montar seu combo.";
     variant := Destructive |}.

Definition added : ToastMessage :=
  {| title := "Combo adicionado!";
     description := "Combo com 5% de desconto foi adicionado ao carrinho.";
     variant := Default |}.

(** [now] is the value of [Date.now()]. *)
Definition handleAddCombo (now : N) (s : Selection) : Selection * list Call :=
  match selectedDestilado s, selectedEnergetico s, selectedGelo s with
  | Some destilado, Some energetico, Some gelo =>
      let totals := calculateTotal s in
      let comboId := "combo-" ++ Js.decimal now in
      (resetSelections s,
       [addCombo {| combo_id := comboId;
                    combo_destilado := destilado;
                    combo_energetico := energetico;
                    combo_energeticoQuantity := energeticoQuantity s;
                    combo_gelo := gelo;
                    combo_geloQuantity := geloQuantity s;
                    combo_discountPercent := 5;
                    combo_originalTotal := original totals;
                    combo_discountedTotal := discounted totals |};
        toast added;
        onOpenChange false])
  | _, _, _ => (s, [toast rejection])
  end.

(** The [onClick] of the two pack buttons. *)
Definition selectPackOption (x : EnergeticoOption) (s : Selection)
  : Selection :=
  {| selectedDestilado := selectedDestilado s;
     selectedEnergetico := None;
     energeticoOption := x;
     selectedGelo := selectedGelo s |}.

End VariantA.

(** ** The component with four ice slots and a category step *)

Module VariantB.

Inductive EnergeticoOption : Type := Opt2L | Opt4cans.

Definition COMBO_CATEGORIES : list string :=
  ["Gin"; "Vodka"; "Cachaça"; "Whisky"].
Definition ICE_COUNT : nat := 4.
Definition CAN_COUNT : Z := 4.

Record ComboGelo : Type := { product : Product; quantity : Z }.

Record ComboRecord : Type := {
  combo_id : string;
  combo_destilado : Product;
  combo_energetico : Product;
  combo_energeticoQuantity : Z;
  combo_gelos : list ComboGelo;
  combo_discountPercent : Z;
  combo_originalTotal : float;
  combo_discountedTotal : float
}.

Inductive Call : Type :=
| toast (m : ToastMessage)
| addCombo (c : ComboRecord)
| onOpenChange (isOpen : bool).

(** The five [useState] cells. *)
Record Selection : Type := {
  selectedCategory : option string;
  selectedDestilado : option Product;
  selectedGelos : list (option Product);
  selectedEnergetico : option Product;
  energeticoOption : EnergeticoOption
}.

Definition initial : Selection :=
  {| selectedCategory := None; selectedDestilado := None;
     selectedGelos := replicate ICE_COUNT None;
     selectedEnergetico := None; energeticoOption := Opt2L |}.

(** [!selectedCategory] on [string | null]: the empty string is falsy as
    well. *)
Definition falsy (x : option string) : bool :=
  match x with
  | None => true
  | Some v => String.eqb v ""
  end.

(** [xs.filter((g): g is Product => g !== null)] *)
Fixpoint nonNull (xs : list (option Product)) : list Product :=
  match xs with
  | [] => []
  | Some g :: xs' => g :: nonNull xs'
  | None :: xs' => nonNull xs'
  end.

(** [g!.id]; it is applied to filtered, non-null entries only. *)
Definition bangId (g : option Product) : string :=
  match g with Some p => Product.id p | None => "" end.

Section Catalog.
Variable products : list Product.
Variable categories : list Category.

Definition comboCategories : list Category :=
  List.filter (fun c =>
    Js.some (fun name =>
               String.eqb (Js.toLowerCase (Category.name c))
                          (Js.toLowerCase name))
            COMBO_CATEGORIES)
  categories.

Definition destiladosByCategory (selectedCategory : option string)
  : list Product :=
  if falsy selectedCategory then [] else
  match selectedCategory with
  | None => []
  | Some selected =>
      match List.find (fun c => String.eqb (Category.id c) selected)
                      categories with
      | None => []
      | Some category =>
          List.filter (fun p =>
            Product.comboEligible p &&
            Product.isActive p &&
            (0 <? Product.stock p)%Z &&
            String.eqb (Product.categoryId p) (Category.id category))
          products
      end
  end.

Definition energeticos2L : list Product :=
  List.filter (fun p =>
    Product.comboEligible p &&
    Product.isActive p &&
    (0 <? Product.stock p)%Z &&
    isEnergetico (Product.name p) &&
    has2L p)
  products.

Definition energeticosCans : list Product :=
  List.filter (fun p =>
    Product.comboEligible p &&
    Product.isActive p &&
    (CAN_COUNT <=? Product.stock p)%Z &&
    isEnergetico (Product.name p) &&
    negb (has2L p))
  products.

Definition gelosAvailable : list Product :=
  List.filter (fun p =>
    let lowerName := Js.toLowerCase (Product.name p) in
    Product.comboEligible p &&
    Product.isActive p &&
    (1 <=? Product.stock p)%Z &&
    (Js.includes lowerName "gelo" &&
     negb (Js.includes lowerName "kg") &&
     negb (Js.includes lowerName "saco") &&
     negb (Js.includes lowerName "triturado") &&
     negb (Js.includes lowerName "premium")))
  products.

Definition selectedIds (selectedGelos : list (option Product))
           (slotIndex : nat) : list string :=
  map bangId
      (Js.filteri (fun g idx => negb (Js.isNull g) && negb (idx =? slotIndex)%nat)
                  selectedGelos).

Definition getAvailableGelosForSlot (selectedGelos : list (option Product))
           (slotIndex : nat) : list Product :=
  List.filter (fun g =>
                 negb (Js.arrayIncludes (selectedIds selectedGelos slotIndex)
                                        (Product.id g)))
              gelosAvailable.
End Catalog.

Definition energeticoQuantity (s : Selection) : Z :=
  match energeticoOption s with Opt2L => 1 | Opt4cans => CAN_COUNT end.

Definition calculateTotal (s : Selection) : Totals :=
  let validGelos := nonNull (selectedGelos s) in
  match selectedDestilado s, selectedEnergetico s with
  | Some destilado, Some energetico =>
      if negb (length validGelos =? ICE_COUNT)%nat
      then {| original := 0%float; discounted := 0%float |}
      else
        let destiladoPrice := Product.salePrice destilado in
        let energeticoPrice :=
          (Product.salePrice energetico * Js.number (energeticoQuantity s))%float in
        let geloPrice :=
          fold_left (fun sum g => (sum + Product.salePrice g)%float)
                    validGelos 0%float in
        let original := (destiladoPrice + energeticoPrice + geloPrice)%float in
        let discounted := (original * 0.95)%float in
        {| original := original; discounted := discounted |}
  | _, _ => {| original := 0%float; discounted := 0%float |}
  end.

(** [newGelos[index] = product] on a copy of [prev].  Every call site takes
    [index] from the [ICE_COUNT] rendered slots and the array always has
    that length, so the assignment is in range.  Out of range JS grows the
    copy by empty positions up to [index]; they are written [None] here,
    which is how [filter] and the truthiness tests of this component see
    them. *)
Definition handleSelectGelo (index : nat) (product : option Product)
           (prev : list (option Product)) : list (option Product) :=
  let newGelos := prev in
  if (index <? length newGelos)%nat then <[index := product]> newGelos
  else newGelos ++ replicate (index - length newGelos) None ++ [product].

Definition resetSelections (s : Selection) : Selection :=
  {| selectedCategory := None; selectedDestilado := None;
     selectedGelos := replicate ICE_COUNT None;
     selectedEnergetico := None; energeticoOption := Opt2L |}.

Definition validGelosCount (s : Selection) : nat :=
  length (nonNull (selectedGelos s)).

Definition isComplete (s : Selection) : bool :=
  negb (Js.isNull (selectedDestilado s)) &&
  negb (Js.isNull (selectedEnergetico s)) &&
  (validGelosCount s =? ICE_COUNT)%nat.

Definition rejection : ToastMessage :=
  {| title := "Selecione todos os itens";
     description :=
       "Escolha a bebida, os 4 gelos e o energetico para montar seu combo.";
     variant := Destructive |}.

Definition added : ToastMessage :=
  {| title := "Combo adicionado!";
     description := "Combo com 5% de desconto foi adicionado ao carrinho.";
     variant := Default |}.

(** [now] is the value of [Date.now()]. *)
Definition handleAddCombo (now : N) (s : Selection) : Selection * list Call :=
  let validGelos := nonNull (selectedGelos s) in
  match selectedDestilado s, selectedEnergetico s with
  | Some destilado, Some energetico =>
      if negb (length validGelos =? ICE_COUNT)%nat
      then (s, [toast rejection])
      else
        let totals := calculateTotal s in
        let comboId := "combo-" ++ Js.decimal now in
        let gelos := map (fun g => {| product := g; quantity := 1 |}) validGelos in
        (resetSelections s,
         [addCombo {| combo_id := comboId;
                      combo_destilado := destilado;
                      combo_energetico := energetico;
                      combo_energeticoQuantity := energeticoQuantity s;
                      combo_gelos := gelos;
                      combo_discountPercent := 5;
                      combo_originalTotal := original totals;
                      combo_discountedTotal := discounted totals |};
          toast added;
          onOpenChange false])
  | _, _ => (s, [toast rejection])
  end.

(** The [onClick] of the two pack buttons. *)
Definition selectPackOption (x : EnergeticoOption) (s : Selection)
  : Selection :=
  {| selectedCategory := selectedCategory s;
     selectedDestilado := selectedDestilado s;
     selectedGelos := selectedGelos s;
     selectedEnergetico := None;
     energeticoOption := x |}.

(** *** Vocabulary of the slot invariant *)

(** The identifiers held by the filled slots, in slot order. *)
Definition filledIds (l : list (option Product)) : list string :=
  map Product.id (nonNull l).

(** [selectedIds] with the index counter of [filter] started at [k]. *)
Definition selectedIdsFrom (k slotIndex : nat) (l : list (option Product))
  : list string :=
  map bangId
      (Js.filteriFrom k
         (fun g idx => negb (Js.isNull g) && negb (idx =? slotIndex)%nat) l).

(** *** The events of the dialog

    One constructor per control of the rendered dialog.  [dispatch] is what
    its handler does to the state; [offered] says in which states the
    control is on screen with that argument.  The confirm button is
    disabled while the selection is incomplete; its handler tests the
    selection again, and it is taken here to run in any state. *)
Inductive Action : Type :=
| clickCategory (cat : Category)
| clickDestilado (p : Product)
| clickSelectedGelo (index : nat)
| clickGelo (index : nat) (p : Product)
| clickPack (x : EnergeticoOption)
| clickEnergetico (p : Product)
| clickAddCombo (now : N)
| closeDialog.

Definition setSelectedGelos (f : list (option Product) -> list (option Product))
           (s : Selection) : Selection :=
  {| selectedCategory := selectedCategory s;
     selectedDestilado := selectedDestilado s;
     selectedGelos := f (selectedGelos s);
     selectedEnergetico := selectedEnergetico s;
     energeticoOption := energeticoOption s |}.

Definition dispatch (a : Action) (s : Selection) : Selection :=
  match a with
  | clickCategory cat =>
      {| selectedCategory := Some (Category.id cat);
         selectedDestilado := None;
         selectedGelos := selectedGelos s;
         selectedEnergetico := selectedEnergetico s;
         energeticoOption := energeticoOption s |}
  | clickDestilado p =>
      {| selectedCategory := selectedCategory s;
         selectedDestilado := toggle (selectedDestilado s) p;
         selectedGelos := selectedGelos s;
         selectedEnergetico := selectedEnergetico s;
         energeticoOption := energeticoOption s |}
  | clickSelectedGelo index => setSelectedGelos (handleSelectGelo index None) s
  | clickGelo index p => setSelectedGelos (handleSelectGelo index (Some p)) s
  | clickPack x => selectPackOption x s
  | clickEnergetico p =>
      {| selectedCategory := selectedCategory s;
         selectedDestilado := selectedDestilado s;
         selectedGelos := selectedGelos s;
         selectedEnergetico := toggle (selectedEnergetico s) p;
         energeticoOption := energeticoOption s |}
  | clickAddCombo now => fst (handleAddCombo now s)
  | closeDialog => resetSelections s
  end.

Section Dialog.
Variable products : list Product.
Variable categories : list Category.

Definition offered (s : Selection) (a : Action) : Prop :=
  match a with
  | clickCategory cat => In cat (comboCategories categories)
  | clickDestilado p =>
      falsy (selectedCategory s) = false /\
      In p (destiladosByCategory products categories (selectedCategory s))
  | clickSelectedGelo index =>
      (index < ICE_COUNT)%nat /\
      exists p, selectedGelos s !! index = Some (Some p)
  | clickGelo index p =>
      (index < ICE_COUNT)%nat /\
      In p (getAvailableGelosForSlot products (selectedGelos s) index)
  | clickPack _ => True
  | clickEnergetico p =>
      In p (match energeticoOption s with
            | Opt2L => energeticos2L products
            | Opt4cans => energeticosCans products
            end)
  | clickAddCombo _ => True
  | closeDialog => True
  end.

Inductive reachable : Selection -> Prop :=
| reachable_initial : reachable initial
| reachable_dispatch s a :
    reachable s -> offered s a -> reachable (dispatch a s).
End Dialog.

End VariantB.

(** ** The add-to-cart path of the special-drinks dialog

    [handleAddToCart] has the same text in both versions of the component. *)

Module SpecialDrinks.

(** An entry of the cart store's [items], with the fields read here. *)
Record CartItem : Type := { productId : string; quantity : Z }.

Inductive Call : Type :=
| toast (m : ToastMessage)
| addItem (p : Product).

Definition insufficient (product : Product) : ToastMessage :=
  {| title := "Estoque Insuficiente";
     description :=
       "O produto " ++ Product.name product ++
       " esta com estoque zerado ou voce ja adicionou a quantidade maxima disponivel.";
     variant := Destructive |}.

Definition added (product : Product) : ToastMessage :=
  {| title := "Adicionado ao carrinho";
     description := Product.name product ++ " foi adicionado.";
     variant := Default |}.

(** [item?.quantity ?? 0] *)
Definition quantityOrZero (item : option CartItem) : Z :=
  match item with Some i => quantity i | None => 0 end.

Definition getCartQuantity (items : list CartItem) (id : string) : Z :=
  let item := List.find (fun i => String.eqb (productId i) id) items in
  quantityOrZero item.

Definition handleAddToCart (items : list CartItem) (product : Product)
  : list Call :=
  let accept := [addItem product; toast (added product)] in
  if negb (Product.isPrepared product) then
    let cartItem :=
      List.find (fun i => String.eqb (productId i) (Product.id product)) items in
    let currentQty := quantityOrZero cartItem in
    if (Product.stock product <=? 0)%Z || (Product.stock product <=? currentQty)%Z
    then [toast (insufficient product)]
    else accept
  else accept.

End SpecialDrinks.

(** ** Sample catalog, used to run the definitions *)

Module Sample.

Definition item (id name : string) (price : float) (cat : string)
           (stock : Z) : Product :=
  Product.mk id name price cat true stock true false.

Definition gin : Product := item "d1" "Gin Tanqueray 750ml" 50 "c-gin" 3.
Definition redbull2L : Product := item "e1" "Energetico Red Bull 2L" 18 "c-en" 2.
Definition monsterCan : Product := item "e2" "Monster Energy Lata" 6 "c-en" 12.
Definition geloCoco : Product := item "g1" "GELO Coco" 3 "c-gelo" 1.
Definition geloMaca : Product := item "g2" "GELO Maca Verde" 3 "c-gelo" 9.
Definition geloMelancia : Product := item "g3" "GELO Melancia" 3 "c-gelo" 9.
Definition geloMaracuja : Product := item "g4" "GELO Maracuja" 3 "c-gelo" 9.
Definition geloSaco : Product := item "g5" "Gelo Saco 5kg" 12 "c-gelo" 10.
Definition geloPremium : Product := item "g6" "Gelo Premium Cubo" 4 "c-gelo" 8.

Definition ginBrinde : Product := item "b2" "Gin Brinde" 0 "c-gin" 9.

(** The priced scenario: spirit 50.00, a four-can pack at 6.00 a can, four
    ice units at 3.00. *)
Definition scenario : VariantB.Selection :=
  {| VariantB.selectedCategory := Some "c-gin";
     VariantB.selectedDestilado := Some gin;
     VariantB.selectedGelos :=
       [Some geloCoco; Some geloMaca; Some geloMelancia; Some geloMaracuja];
     VariantB.selectedEnergetico := Some monsterCan;
     VariantB.energeticoOption := VariantB.Opt4cans |}.



Definition catGin : Category := Category.mk "c-gin" "GIN" true.



Definition twoGelos : VariantB.Selection :=
  VariantB.dispatch (VariantB.clickGelo 1 geloMaca)
    (VariantB.dispatch (VariantB.clickGelo 0 geloCoco) VariantB.initial).
Definition catEnergy : Category := Category.mk "c-en" "Energeticos" true.
Definition catGelo : Category := Category.mk "c-gelo" "Gelos" true.

Definition products : list Product :=
  [gin; redbull2L; monsterCan; geloCoco; geloMaca; geloMelancia;
   geloMaracuja; geloSaco; geloPremium].
Definition categories : list Category := [catGin; catEnergy; catGelo].

End Sample.

(** ** The search box of the product selector *)

Module JsText.

Definition bytes (l : list N) : string :=
  fold_right (fun n s => String (ascii_of_N n) s) EmptyString l.

(** The code points that [trim] strips, WhiteSpace and LineTerminator of the
    language, in UTF-8: TAB, LF, VT, FF, CR, SP, U+00A0, U+1680,
    U+2000..U+200A, U+2028, U+2029, U+202F, U+205F, U+3000, U+FEFF. *)
Definition whiteSpace : list string :=
  map bytes
    [[9]; [10]; [11]; [12]; [13]; [32]; [194; 160]; [225; 154; 128];
     [226; 128; 128]; [226; 128; 129]; [226; 128; 130]; [226; 128; 131];
     [226; 128; 132]; [226; 128; 133]; [226; 128; 134]; [226; 128; 135];
     [226; 128; 136]; [226; 128; 137]; [226; 128; 138]; [226; 128; 168];
     [226; 128; 169]; [226; 128; 175]; [226; 129; 159]; [227; 128; 128];
     [239; 187; 191]]%N.

Fixpoint dropPrefix (pre s : string) : option string :=
  match pre, s with
  | EmptyString, _ => Some s
  | String a pre', String b s' =>
      if Ascii.eqb a b then dropPrefix pre' s' else None
  | String _ _, EmptyString => None
  end.

(** [s] without its first character, when that character is white space. *)
Definition dropWhiteSpace (s : string) : option string :=
  fold_right (fun w rest =>
                match dropPrefix w s with Some r => Some r | None => rest end)
             None whiteSpace.

Fixpoint trimStartFrom (fuel : nat) (s : string) : string :=
  match fuel with
  | O => s
  | S fuel' =>
      match dropWhiteSpace s with
      | Some r => trimStartFrom fuel' r
      | None => s
      end
  end.

(** Every step removes a character, so the length of [s] is fuel enough. *)
Definition trimStart (s : string) : string := trimStartFrom (String.length s) s.

Fixpoint trimEnd (s : string) : string :=
  match s with
  | EmptyString => EmptyString
  | String c s' =>
      if String.eqb (trimStart s) "" then EmptyString else String c (trimEnd s')
  end.

(** [s.trim()] *)
Definition trim (s : string) : string := trimEnd (trimStart s).

End JsText.

Module ProductSelector.

(** The list that the selector shows for the text of its search box. *)
Definition filteredProducts (products : list Product) (search : string)
  : list Product :=
  if String.eqb (JsText.trim search) "" then products
  else
    let searchLower := Js.toLowerCase search in
    List.filter (fun p => Js.includes (Js.toLowerCase (Product.name p)) searchLower)
                products.

End ProductSelector.

(** ** The events of the single-ice-field dialog

    Its three lists are product selectors: a product can be clicked when it
    is shown for some text of the search box, and the click toggles it.  As
    in the four-slot dialog the confirm handler is taken to run in any state. *)

Module DialogA.

Inductive Action : Type :=
| clickDestilado (p : Product)
| clickPack (x : VariantA.EnergeticoOption)
| clickEnergetico (p : Product)
| clickGelo (p : Product)
| clickAddCombo (now : N)
| closeDialog.

Definition dispatch (a : Action) (s : VariantA.Selection) : VariantA.Selection :=
  match a with
  | clickDestilado p =>
      {| VariantA.selectedDestilado := toggle (VariantA.selectedDestilado s) p;
         VariantA.selectedEnergetico := VariantA.selectedEnergetico s;
         VariantA.energeticoOption := VariantA.energeticoOption s;
         VariantA.selectedGelo := VariantA.selectedGelo s |}
  | clickPack x => VariantA.selectPackOption x s
  | clickEnergetico p =>
      {| VariantA.selectedDestilado := VariantA.selectedDestilado s;
         VariantA.selectedEnergetico := toggle (VariantA.selectedEnergetico s) p;
         VariantA.energeticoOption := VariantA.energeticoOption s;
         VariantA.selectedGelo := VariantA.selectedGelo s |}
  | clickGelo p =>
      {| VariantA.selectedDestilado := VariantA.selectedDestilado s;
         VariantA.selectedEnergetico := VariantA.selectedEnergetico s;
         VariantA.energeticoOption := VariantA.energeticoOption s;
         VariantA.selectedGelo := toggle (VariantA.selectedGelo s) p |}
  | clickAddCombo now => fst (VariantA.handleAddCombo now s)
  | closeDialog => VariantA.resetSelections s
  end.

Section Dialog.
Variable products : list Product.
Variable categories : list Category.

Definition offered (s : VariantA.Selection) (a : Action) : Prop :=
  match a with
  | clickDestilado p =>
      exists search,
        In p (ProductSelector.filteredProducts
                (VariantA.destilados products categories) search)
  | clickPack _ => True
  | clickEnergetico p =>
      exists search,
        In p (ProductSelector.filteredProducts
                (match VariantA.energeticoOption s with
                 | VariantA.Opt2L => VariantA.energeticos2L products
                 | VariantA.Opt5cans => VariantA.energeticosCans products
                 end) search)
  | clickGelo p =>
      exists search,
        In p (ProductSelector.filteredProducts (VariantA.gelos products) search)
  | clickAddCombo _ => True
  | closeDialog => True
  end.

Inductive reachable : VariantA.Selection -> Prop :=
| reachable_initial : reachable VariantA.initial
| reachable_dispatch s a :
    reachable s -> offered s a -> reachable (dispatch a s).
End Dialog.

End DialogA.

(** ** The carousel of the special-drinks dialog *)

Module Carousel.

Definition specialCategoryNames : list string :=
  ["CAIPIRINHAS"; "DRINKS ESPECIAIS"; "COPAO"; "BATIDAS"].

Definition specialCategories (categories : list Category) : list Category :=
  List.filter (fun c =>
    Category.isActive c &&
    Js.some (fun name =>
               String.eqb (Js.toLowerCase (Category.name c))
                          (Js.toLowerCase name))
            specialCategoryNames)
  categories.

Definition specialDrinks (products : list Product)
           (selectedCategory : option string) : list Product :=
  List.filter (fun p =>
    if negb (Product.isActive p) then false
    else if VariantB.falsy selectedCategory then false
    else match selectedCategory with
         | Some selected => String.eqb (Product.categoryId p) selected
         | None => false
         end)
  products.

(** The number in [currentIndex]: an integer, or NaN (what [% 0] gives). *)
Inductive Index : Type := Num (z : Z) | NaN.

(** The updater of [handleNext] and of the auto-play timer,
    [prev => (prev + 1) % length]; [%] takes the sign of the dividend. *)
Definition next (length : nat) (prev : Index) : Index :=
  match prev with
  | Num z => if (length =? 0)%nat then NaN
             else Num (Z.rem (z + 1) (Z.of_nat length))
  | NaN => NaN
  end.

(** The updater of [handlePrev], [prev => prev === 0 ? length - 1 : prev - 1]. *)
Definition prev (length : nat) (prev : Index) : Index :=
  match prev with
  | Num z => if (z =? 0)%Z then Num (Z.of_nat length - 1) else Num (z - 1)
  | NaN => NaN
  end.


Record State : Type := {
  isOpen : bool;
  selectedCategory : option string;
  currentIndex : Index;
  isAutoPlaying : bool
}.

Definition initial : State :=
  {| isOpen := false; selectedCategory := None; currentIndex := Num 0;
     isAutoPlaying := true |}.

(** [selectedCategory] is set to [c]; the effect that depends on it puts the
    index back to 0 when the value changed, and is taken to run with the
    update. *)
Definition setSelectedCategory (c : option string) (s : State) : State :=
  {| isOpen := isOpen s;
     selectedCategory := c;
     currentIndex :=
       if bool_decide (c = selectedCategory s) then currentIndex s else Num 0;
     isAutoPlaying := isAutoPlaying s |}.

Definition setCurrentIndex (f : Index -> Index) (s : State) : State :=
  {| isOpen := isOpen s; selectedCategory := selectedCategory s;
     currentIndex := f (currentIndex s); isAutoPlaying := isAutoPlaying s |}.

Definition setIsAutoPlaying (b : bool) (s : State) : State :=
  {| isOpen := isOpen s; selectedCategory := selectedCategory s;
     currentIndex := currentIndex s; isAutoPlaying := b |}.

(** The effect that picks the first special category while the dialog is
    open and none is selected. *)
Definition autoSelect (categories : list Category) (s : State) : State :=
  match specialCategories categories with
  | first :: _ =>
      if isOpen s && VariantB.falsy (selectedCategory s)
      then setSelectedCategory (Some (Category.id first)) s else s
  | [] => s
  end.

(** The effect of [open]: when the dialog is closed the category and the
    index are cleared. *)
Definition setOpen (categories : list Category) (o : bool) (s : State) : State :=
  let s' := {| isOpen := o; selectedCategory := selectedCategory s;
               currentIndex := currentIndex s;
               isAutoPlaying := isAutoPlaying s |} in
  if o then autoSelect categories s'
  else setCurrentIndex (fun _ => Num 0) (setSelectedCategory None s').

Inductive Action : Type :=
| open (o : bool)
| clickFilter (category : Category)
| toggleAutoPlay
| clickPrev
| clickNext
| clickDot (i : nat)
| tick.

Section Dialog.
Variable products : list Product.
Variable categories : list Category.

Definition drinks (s : State) : list Product :=
  specialDrinks products (selectedCategory s).

Definition dispatch (a : Action) (s : State) : State :=
  match a with
  | open o => setOpen categories o s
  | clickFilter category =>
      setIsAutoPlaying true (setSelectedCategory (Some (Category.id category)) s)
  | toggleAutoPlay => setIsAutoPlaying (negb (isAutoPlaying s)) s
  | clickPrev => setCurrentIndex (prev (length (drinks s))) s
  | clickNext => setCurrentIndex (next (length (drinks s))) s
  | clickDot i => setCurrentIndex (fun _ => Num (Z.of_nat i)) s
  | tick => setCurrentIndex (next (length (drinks s))) s
  end.

(** The arrows are rendered with a non-empty list, the dots and the timer
    with more than one drink. *)
Definition offered (s : State) (a : Action) : Prop :=
  match a with
  | open _ => True
  | clickFilter category => In category (specialCategories categories)
  | toggleAutoPlay => length (drinks s) <> 0%nat
  | clickPrev => length (drinks s) <> 0%nat
  | clickNext => length (drinks s) <> 0%nat
  | clickDot i => (1 < length (drinks s))%nat /\ (i < length (drinks s))%nat
  | tick => isAutoPlaying s = true /\ (1 < length (drinks s))%nat
  end.

(** The index is a non-negative integer and, unless it is 0, it is inside
    the list of drinks on screen. *)
Definition indexInside (s : State) : Prop :=
  exists z, currentIndex s = Num z /\
            (0 <= z)%Z /\
            (z = 0%Z \/ (z < Z.of_nat (length (drinks s)))%Z).

(** The selected category, if any, is one of the filter buttons. *)
Definition categoryOffered (s : State) : Prop :=
  forall cid, selectedCategory s = Some cid ->
  exists c, In c (specialCategories categories) /\ Category.id c = cid.

Inductive reachable : State -> Prop :=
| reachable_initial : reachable initial
| reachable_dispatch s a :
    reachable s -> offered s a -> reachable (dispatch a s).
End Dialog.

(** The card of a drink: the "Esgotado" badge and the "Adicionar" button. *)
Definition isOutOfStock (p : Product) : bool :=
  negb (Product.isPrepared p) && (Product.stock p <=? 0)%Z.

Definition showsAddButton (items : list SpecialDrinks.CartItem) (p : Product)
  : bool :=
  negb (isOutOfStock p) &&
  (SpecialDrinks.getCartQuantity items (Product.id p) =? 0)%Z.

End Carousel.

(** ** More sample data *)

Module Sample2.

Definition catCaipirinhas : Category := Category.mk "c-cai" "Caipirinhas" true.
Definition catBatidas : Category := Category.mk "c-bat" "BATIDAS" true.
Definition catCopao : Category := Category.mk "c-cop" "Copao" false.

Definition drink (id name : string) (cat : string) (prepared : bool)
           (stock : Z) : Product :=
  Product.mk id name 22 cat true stock false prepared.

Definition caipiLimao : Product := drink "s1" "Caipirinha de Limao" "c-cai" true 0.
Definition caipiMorango : Product := drink "s2" "Caipirinha de Morango" "c-cai" true 0.
Definition caipiLata : Product := drink "s3" "Caipirinha Lata" "c-cai" false 2.
Definition batidaCoco : Product := drink "s4" "Batida de Coco" "c-bat" false 0.

Definition products : list Product :=
  [caipiLimao; caipiMorango; caipiLata; batidaCoco] ++ Sample.products.
Definition categories : list Category :=
  [catCopao; catCaipirinhas; catBatidas] ++ Sample.categories.

Definition opened : Carousel.State :=
  Carousel.dispatch products categories (Carousel.open true) Carousel.initial.

Definition advanced : Carousel.State :=
  Carousel.dispatch products categories Carousel.clickPrev opened.

(** The single-ice-field dialog with everything chosen. *)
Definition fullA : VariantA.Selection :=
  DialogA.dispatch (DialogA.clickGelo Sample.geloSaco)
    (DialogA.dispatch (DialogA.clickEnergetico Sample.monsterCan)
       (DialogA.dispatch (DialogA.clickPack VariantA.Opt5cans)
          (DialogA.dispatch (DialogA.clickDestilado Sample.gin)
                            VariantA.initial))).

(** The four-slot dialog with everything chosen. *)
Definition fullB : VariantB.Selection :=
  VariantB.dispatch (VariantB.clickEnergetico Sample.monsterCan)
    (VariantB.dispatch (VariantB.clickPack VariantB.Opt4cans)
       (VariantB.dispatch (VariantB.clickGelo 3 Sample.geloMaracuja)
          (VariantB.dispatch (VariantB.clickGelo 2 Sample.geloMelancia)
             (VariantB.dispatch (VariantB.clickDestilado Sample.gin)
                (VariantB.dispatch (VariantB.clickCategory Sample.catGin)
                                   Sample.twoGelos))))).
End Sample2.

(** * Properties *)

(** ** Array helpers *)

Lemma some_true {A} (f : A -> bool) (xs : list A) :
  Js.some f xs = true <-> exists x, In x xs /\ f x = true.
Proof. unfold Js.some. apply existsb_exists. Qed.

Lemma arrayIncludes_true (ids : list string) (x : string) :
  Js.arrayIncludes ids x = true <-> In x ids.
Proof.
  unfold Js.arrayIncludes. rewrite existsb_exists. split.
  - intros (y & Hy & Heq). apply String.eqb_eq in Heq. now subst.
  - intros H. exists x. split; [assumption | apply String.eqb_refl].
Qed.

Example sample_destilados :
  VariantA.destilados Sample.products Sample.categories = [Sample.gin] /\
  VariantB.comboCategories Sample.categories = [Sample.catGin] /\
  VariantB.destiladosByCategory Sample.products Sample.categories (Some "c-gin")
    = [Sample.gin].
Proof. repeat split; reflexivity. Qed.

Example sample_energeticos :
  VariantA.energeticos2L Sample.products = [Sample.redbull2L] /\
  VariantA.energeticosCans Sample.products = [Sample.monsterCan] /\
  VariantB.energeticos2L Sample.products = [Sample.redbull2L] /\
  VariantB.energeticosCans Sample.products = [Sample.monsterCan].
Proof. repeat split; reflexivity. Qed.

Example sample_gelos :
  VariantA.gelos Sample.products =
    [Sample.geloMaca; Sample.geloMelancia; Sample.geloMaracuja;
     Sample.geloSaco; Sample.geloPremium] /\
  VariantB.gelosAvailable Sample.products =
    [Sample.geloCoco; Sample.geloMaca; Sample.geloMelancia; Sample.geloMaracuja].
Proof. split; reflexivity. Qed.

(** ** Pack option *)

(** C1. In both components, pressing a pack button stores the pressed option
    and leaves no energy drink selected, whatever was selected before; the
    other fields keep their values. *)
Theorem C1_selectPackOption_clears_energetico :
  (forall (x : VariantA.EnergeticoOption) (s : VariantA.Selection),
      VariantA.selectedEnergetico (VariantA.selectPackOption x s) = None /\
      VariantA.energeticoOption (VariantA.selectPackOption x s) = x /\
      VariantA.selectedDestilado (VariantA.selectPackOption x s)
        = VariantA.selectedDestilado s /\
      VariantA.selectedGelo (VariantA.selectPackOption x s)
        = VariantA.selectedGelo s) /\
  (forall (x : VariantB.EnergeticoOption) (s : VariantB.Selection),
      VariantB.selectedEnergetico (VariantB.dispatch (VariantB.clickPack x) s) = None /\
      VariantB.energeticoOption (VariantB.dispatch (VariantB.clickPack x) s) = x /\
      VariantB.selectedDestilado (VariantB.dispatch (VariantB.clickPack x) s)
        = VariantB.selectedDestilado s /\
      VariantB.selectedGelos (VariantB.dispatch (VariantB.clickPack x) s)
        = VariantB.selectedGelos s).
Proof. split; intros x s; repeat split. Qed.

Example pack_switch_drops_can :
  let s := VariantB.dispatch (VariantB.clickEnergetico Sample.monsterCan)
             (VariantB.dispatch (VariantB.clickPack VariantB.Opt4cans)
                                VariantB.initial) in
  VariantB.selectedEnergetico s = Some Sample.monsterCan /\
  VariantB.selectedEnergetico (VariantB.dispatch (VariantB.clickPack VariantB.Opt2L) s)
    = None.
Proof. split; reflexivity. Qed.

(** ** Energy-drink lists *)

Section EnergeticoLists.
Variable products : list Product.

Lemma A_energeticos2L_In p :
  In p (VariantA.energeticos2L products) <->
  In p products /\ Product.comboEligible p = true /\
  Product.isActive p = true /\ (0 < Product.stock p)%Z /\
  isEnergetico (Product.name p) = true /\ has2L p = true.
Proof.
  unfold VariantA.energeticos2L. rewrite filter_In, !andb_true_iff, Z.ltb_lt.
  tauto.
Qed.

Lemma A_energeticosCans_In p :
  In p (VariantA.energeticosCans products) <->
  In p products /\ Product.comboEligible p = true /\
  Product.isActive p = true /\ (5 <= Product.stock p)%Z /\
  isEnergetico (Product.name p) = true /\ has2L p = false.
Proof.
  unfold VariantA.energeticosCans.
  rewrite filter_In, !andb_true_iff, Z.leb_le, negb_true_iff. tauto.
Qed.

Lemma B_energeticos2L_In p :
  In p (VariantB.energeticos2L products) <->
  In p products /\ Product.comboEligible p = true /\
  Product.isActive p = true /\ (0 < Product.stock p)%Z /\
  isEnergetico (Product.name p) = true /\ has2L p = true.
Proof.
  unfold VariantB.energeticos2L. rewrite filter_In, !andb_true_iff, Z.ltb_lt.
  tauto.
Qed.

Lemma B_energeticosCans_In p :
  In p (VariantB.energeticosCans products) <->
  In p products /\ Product.comboEligible p = true /\
  Product.isActive p = true /\ (VariantB.CAN_COUNT <= Product.stock p)%Z /\
  isEnergetico (Product.name p) = true /\ has2L p = false.
Proof.
  unfold VariantB.energeticosCans.
  rewrite filter_In, !andb_true_iff, Z.leb_le, negb_true_iff. tauto.
Qed.
End EnergeticoLists.

(** C6. Take a product whose name matches an energy-drink keyword.  If the
    name carries the 2L marker the product is in neither can list; if it does
    not, the product is in neither 2L list; and in each component no product
    is in both lists.  This holds for every catalog. *)
Theorem C6_energetico_lists_disjoint (products : list Product) (p : Product) :
  isEnergetico (Product.name p) = true ->
  (has2L p = true ->
     ~ In p (VariantA.energeticosCans products) /\
     ~ In p (VariantB.energeticosCans products)) /\
  (has2L p = false ->
     ~ In p (VariantA.energeticos2L products) /\
     ~ In p (VariantB.energeticos2L products)) /\
  (forall q, ~ (In q (VariantA.energeticos2L products) /\
                In q (VariantA.energeticosCans products))) /\
  (forall q, ~ (In q (VariantB.energeticos2L products) /\
                In q (VariantB.energeticosCans products))).
Proof.
  intros _. repeat split.
  - rewrite A_energeticosCans_In. intros (_ & _ & _ & _ & _ & Hn). congruence.
  - rewrite B_energeticosCans_In. intros (_ & _ & _ & _ & _ & Hn). congruence.
  - rewrite A_energeticos2L_In. intros (_ & _ & _ & _ & _ & Hn). congruence.
  - rewrite B_energeticos2L_In. intros (_ & _ & _ & _ & _ & Hn). congruence.
  - intros q. rewrite A_energeticos2L_In, A_energeticosCans_In.
    intros ((_ & _ & _ & _ & _ & H1) & (_ & _ & _ & _ & _ & H2)). congruence.
  - intros q. rewrite B_energeticos2L_In, B_energeticosCans_In.
    intros ((_ & _ & _ & _ & _ & H1) & (_ & _ & _ & _ & _ & H2)). congruence.
Qed.

Lemma C6_witness :
  isEnergetico (Product.name Sample.redbull2L) = true /\
  has2L Sample.redbull2L = true /\
  ~ In Sample.redbull2L (VariantA.energeticosCans Sample.products) /\
  ~ In Sample.redbull2L (VariantB.energeticosCans Sample.products).
Proof.
  split; [reflexivity | split; [reflexivity |]].
  apply (C6_energetico_lists_disjoint Sample.products Sample.redbull2L);
    reflexivity.
Defined.

(** ** Ice quantity of the single-ice-field component *)

Lemma A_gelos_In (products : list Product) (p : Product) :
  In p (VariantA.gelos products) <->
  In p products /\ Product.comboEligible p = true /\
  Product.isActive p = true /\
  Js.includes (Js.toLowerCase (Product.name p)) "gelo" = true /\
  (if VariantA.isLargeIceBag (Product.name p)
   then (1 <= Product.stock p)%Z else (5 <= Product.stock p)%Z).
Proof.
  unfold VariantA.gelos. rewrite filter_In, !andb_true_iff.
  destruct (VariantA.isLargeIceBag (Product.name p)); rewrite Z.leb_le; tauto.
Qed.

(** C7, as the code has it.  [getGeloQuantity] gives 1 for a large ice bag
    and 5 for any other product, and 5 while nothing is selected; the stock
    gate of the ice list is that same quantity, so every listed product has
    the stock that its quantity needs. *)
Theorem C7_getGeloQuantity (gelo : Product) :
  (VariantA.isLargeIceBag (Product.name gelo) = true ->
     VariantA.getGeloQuantity (Some gelo) = 1%Z) /\
  (VariantA.isLargeIceBag (Product.name gelo) = false ->
     VariantA.getGeloQuantity (Some gelo) = 5%Z) /\
  VariantA.getGeloQuantity None = 5%Z /\
  (forall products, In gelo (VariantA.gelos products) ->
     (VariantA.getGeloQuantity (Some gelo) <= Product.stock gelo)%Z).
Proof.
  unfold VariantA.getGeloQuantity. repeat split.
  - intros ->. reflexivity.
  - intros ->. reflexivity.
  - intros products H. apply A_gelos_In in H.
    destruct H as (_ & _ & _ & _ & H).
    destruct (VariantA.isLargeIceBag (Product.name gelo)); exact H.
Qed.

Lemma C7_witness :
  VariantA.isLargeIceBag (Product.name Sample.geloSaco) = true /\
  VariantA.getGeloQuantity (Some Sample.geloSaco) = 1%Z /\
  VariantA.isLargeIceBag (Product.name Sample.geloMaca) = false /\
  VariantA.getGeloQuantity (Some Sample.geloMaca) = 5%Z.
Proof.
  split; [reflexivity |]. split.
  - exact (proj1 (C7_getGeloQuantity Sample.geloSaco) eq_refl).
  - split; [reflexivity |].
    exact (proj1 (proj2 (C7_getGeloQuantity Sample.geloMaca)) eq_refl).
Defined.

(** The quantities are the other way round from "1 for a standard unit, 5 for
    a bulk bag": a standard unit resolves to 5 and a bag to 1. *)
Lemma C7_counterexample :
  (VariantA.isLargeIceBag (Product.name Sample.geloMaca) = false /\
   VariantA.getGeloQuantity (Some Sample.geloMaca) <> 1%Z) /\
  (VariantA.isLargeIceBag (Product.name Sample.geloSaco) = true /\
   VariantA.getGeloQuantity (Some Sample.geloSaco) <> 5%Z).
Proof. repeat split; try reflexivity; vm_compute; discriminate. Qed.

(** ** Confirming an incomplete selection *)

Lemma B_isComplete_false (s : VariantB.Selection) :
  VariantB.isComplete s = false <->
  VariantB.selectedDestilado s = None \/
  VariantB.selectedEnergetico s = None \/
  length (VariantB.nonNull (VariantB.selectedGelos s)) <> VariantB.ICE_COUNT.
Proof.
  unfold VariantB.isComplete, VariantB.validGelosCount.
  rewrite !andb_false_iff, !negb_false_iff, Nat.eqb_neq.
  destruct (VariantB.selectedDestilado s), (VariantB.selectedEnergetico s);
    simpl; intuition congruence.
Qed.

Lemma A_isComplete_false (s : VariantA.Selection) :
  VariantA.isComplete s = false <->
  VariantA.selectedDestilado s = None \/
  VariantA.selectedEnergetico s = None \/
  VariantA.selectedGelo s = None.
Proof.
  unfold VariantA.isComplete.
  destruct (VariantA.selectedDestilado s), (VariantA.selectedEnergetico s),
    (VariantA.selectedGelo s); simpl; intuition congruence.
Qed.

(** C9. When the confirm handler runs on an incomplete selection (no spirit,
    no energy drink, or not all ice filled), its only call is the rejection
    toast: no record is built, [addCombo] is not called, the dialog is not
    closed, and the selection it leaves is the selection it found. *)
Theorem C9_incomplete_confirm_rejected :
  (forall (now : N) (s : VariantA.Selection),
      VariantA.isComplete s = false ->
      VariantA.handleAddCombo now s = (s, [VariantA.toast VariantA.rejection])) /\
  (forall (now : N) (s : VariantB.Selection),
      VariantB.isComplete s = false ->
      VariantB.handleAddCombo now s = (s, [VariantB.toast VariantB.rejection]) /\
      VariantB.dispatch (VariantB.clickAddCombo now) s = s).
Proof.
  split.
  - intros now s H. apply A_isComplete_false in H. unfold VariantA.handleAddCombo.
    destruct (VariantA.selectedDestilado s), (VariantA.selectedEnergetico s),
      (VariantA.selectedGelo s); try reflexivity;
      destruct H as [H | [H | H]]; discriminate.
  - intros now s H. apply B_isComplete_false in H.
    assert (E : VariantB.handleAddCombo now s
                = (s, [VariantB.toast VariantB.rejection])).
    { unfold VariantB.handleAddCombo.
      destruct (VariantB.selectedDestilado s), (VariantB.selectedEnergetico s);
        try reflexivity.
      destruct H as [H | [H | H]]; try discriminate.
      apply Nat.eqb_neq in H. rewrite H. reflexivity. }
    split; [exact E |]. simpl. now rewrite E.
Qed.

Lemma C9_witness :
  let s := VariantB.dispatch (VariantB.clickGelo 0 Sample.geloCoco)
                             VariantB.initial in
  VariantB.isComplete s = false /\
  VariantB.handleAddCombo 1700000000000 s
    = (s, [VariantB.toast VariantB.rejection]).
Proof.
  intros s. split; [reflexivity |].
  apply (proj2 C9_incomplete_confirm_rejected 1700000000000%N s). reflexivity.
Defined.

(** ** Special drinks: adding to the cart *)

(** C10. A prepared product is always handed to the cart, whatever its stock
    and whatever the cart holds.  A product that is not prepared is refused,
    with the insufficient-stock toast as the only call, exactly when its
    stock is at most 0 or the quantity already in the cart has reached its
    stock; otherwise it is handed to the cart. *)
Theorem C10_handleAddToCart (items : list SpecialDrinks.CartItem) (product : Product) :
  (Product.isPrepared product = true ->
     SpecialDrinks.handleAddToCart items product
       = [SpecialDrinks.addItem product;
          SpecialDrinks.toast (SpecialDrinks.added product)]) /\
  (Product.isPrepared product = false ->
     ((Product.stock product <= 0 \/
       SpecialDrinks.getCartQuantity items (Product.id product)
         >= Product.stock product)%Z <->
      SpecialDrinks.handleAddToCart items product
        = [SpecialDrinks.toast (SpecialDrinks.insufficient product)]) /\
     (~ (Product.stock product <= 0 \/
         SpecialDrinks.getCartQuantity items (Product.id product)
           >= Product.stock product)%Z <->
      SpecialDrinks.handleAddToCart items product
        = [SpecialDrinks.addItem product;
           SpecialDrinks.toast (SpecialDrinks.added product)])).
Proof.
  unfold SpecialDrinks.handleAddToCart, SpecialDrinks.getCartQuantity.
  set (q := SpecialDrinks.quantityOrZero _).
  split; intros ->; simpl; [reflexivity |].
  destruct (Z.leb_spec (Product.stock product) 0) as [H0 | H0];
    destruct (Z.leb_spec (Product.stock product) q) as [Hq | Hq]; simpl;
    split; split; intros H;
    first [ reflexivity | discriminate | lia | (exfalso; lia)
          | (exfalso; apply H; lia) ].
Qed.

Lemma C10_witness :
  let items := [{| SpecialDrinks.productId := "g1"; SpecialDrinks.quantity := 1 |}] in
  Product.isPrepared Sample.geloCoco = false /\
  SpecialDrinks.handleAddToCart items Sample.geloCoco
    = [SpecialDrinks.toast (SpecialDrinks.insufficient Sample.geloCoco)].
Proof.
  intros items. split; [reflexivity |].
  apply (proj2 (C10_handleAddToCart items Sample.geloCoco)); [reflexivity |].
  right. vm_compute. discriminate.
Defined.

(** ** Pricing *)


Lemma A_discounted (s : VariantA.Selection) :
  discounted (VariantA.calculateTotal s)
  = (original (VariantA.calculateTotal s) * 0.95)%float.
Proof.
  unfold VariantA.calculateTotal.
  destruct (VariantA.selectedDestilado s), (VariantA.selectedEnergetico s),
    (VariantA.selectedGelo s); reflexivity.
Qed.

Lemma B_discounted (s : VariantB.Selection) :
  discounted (VariantB.calculateTotal s)
  = (original (VariantB.calculateTotal s) * 0.95)%float.
Proof.
  unfold VariantB.calculateTotal.
  destruct (VariantB.selectedDestilado s), (VariantB.selectedEnergetico s);
    try reflexivity.
  destruct (negb _); reflexivity.
Qed.






(** ** Ice candidates *)

Lemma B_gelosAvailable_In (products : list Product) (p : Product) :
  In p (VariantB.gelosAvailable products) <->
  In p products /\ Product.comboEligible p = true /\
  Product.isActive p = true /\ (1 <= Product.stock p)%Z /\
  Js.includes (Js.toLowerCase (Product.name p)) "gelo" = true /\
  Js.includes (Js.toLowerCase (Product.name p)) "kg" = false /\
  Js.includes (Js.toLowerCase (Product.name p)) "saco" = false /\
  Js.includes (Js.toLowerCase (Product.name p)) "triturado" = false /\
  Js.includes (Js.toLowerCase (Product.name p)) "premium" = false.
Proof.
  unfold VariantB.gelosAvailable. cbv zeta.
  rewrite filter_In, !andb_true_iff, !negb_true_iff, Z.leb_le. tauto.
Qed.

Lemma B_getAvailableGelosForSlot_In (products : list Product)
      (selectedGelos : list (option Product)) (slotIndex : nat) (p : Product) :
  In p (VariantB.getAvailableGelosForSlot products selectedGelos slotIndex) <->
  In p (VariantB.gelosAvailable products) /\
  ~ In (Product.id p) (VariantB.selectedIds selectedGelos slotIndex).
Proof.
  unfold VariantB.getAvailableGelosForSlot.
  rewrite filter_In, negb_true_iff, <- arrayIncludes_true.
  destruct (Js.arrayIncludes _ _); intuition congruence.
Qed.




(** ** Spirit candidates *)

Lemma A_destilados_In (products : list Product) (categories : list Category)
      (p : Product) :
  In p (VariantA.destilados products categories) <->
  In p products /\ Product.comboEligible p = true /\
  Product.isActive p = true /\ (0 < Product.stock p)%Z /\
  exists c, In c categories /\ Category.id c = Product.categoryId p /\
            exists keyword, In keyword VariantA.destiladoKeywords /\
              Js.includes (Js.toLowerCase (Category.name c)) keyword = true.
Proof.
  unfold VariantA.destilados.
  rewrite filter_In, !andb_true_iff, Z.ltb_lt, arrayIncludes_true.
  unfold VariantA.destiladosCategoryIds. rewrite in_map_iff.
  assert (E : (exists c, Category.id c = Product.categoryId p /\
                 In c (List.filter VariantA.isDestiladoCategory categories)) <->
              (exists c, In c categories /\ Category.id c = Product.categoryId p /\
                 exists keyword, In keyword VariantA.destiladoKeywords /\
                   Js.includes (Js.toLowerCase (Category.name c)) keyword = true)).
  { split; intros (c & H).
    - exists c. rewrite filter_In in H. unfold VariantA.isDestiladoCategory in H.
      rewrite some_true in H. tauto.
    - exists c. rewrite filter_In. unfold VariantA.isDestiladoCategory.
      rewrite some_true. tauto. }
  rewrite E. tauto.
Qed.


Lemma B_falsy_false (x : option string) :
  VariantB.falsy x = false <-> exists v, x = Some v /\ v <> "".
Proof.
  destruct x as [v |]; simpl.
  - rewrite String.eqb_neq. split; [eauto | intros (w & [= ->] & H); exact H].
  - split; [discriminate | intros (w & H & _); discriminate].
Qed.

Lemma B_destiladosByCategory_In (products : list Product)
      (categories : list Category) (selected : option string) (p : Product) :
  In p (VariantB.destiladosByCategory products categories selected) <->
  In p products /\ Product.comboEligible p = true /\
  Product.isActive p = true /\ (0 < Product.stock p)%Z /\
  exists cid, selected = Some cid /\ cid <> "" /\
              (exists c, In c categories /\ Category.id c = cid) /\
              Product.categoryId p = cid.
Proof.
  unfold VariantB.destiladosByCategory.
  destruct (VariantB.falsy selected) eqn:Hf.
  - split; [intros [] |]. intros (_ & _ & _ & _ & cid & -> & Hne & _).
    simpl in Hf. apply String.eqb_eq in Hf. contradiction.
  - apply B_falsy_false in Hf. destruct Hf as (cid & -> & Hne).
    destruct (List.find _ categories) as [category |] eqn:Hfind.
    + apply find_some in Hfind. destruct Hfind as (Hin & Heq).
      apply String.eqb_eq in Heq.
      rewrite filter_In, !andb_true_iff, Z.ltb_lt, String.eqb_eq, Heq.
      split.
      * intros (H1 & ((H2 & H3) & H4) & H5). repeat (split; [assumption |]).
        exists cid. repeat split; eauto.
      * intros (H1 & H2 & H3 & H4 & cid' & [= <-] & _ & _ & H5). tauto.
    + split; [intros [] |].
      intros (_ & _ & _ & _ & cid' & [= <-] & _ & (c & Hc & Hid) & _).
      apply (find_none _ _ Hfind) in Hc. rewrite Hid, String.eqb_refl in Hc.
      discriminate.
Qed.

Lemma B_handleAddCombo_fst (now : N) (s : VariantB.Selection) :
  fst (VariantB.handleAddCombo now s) = s \/
  fst (VariantB.handleAddCombo now s) = VariantB.resetSelections s.
Proof.
  unfold VariantB.handleAddCombo.
  destruct (VariantB.selectedDestilado s), (VariantB.selectedEnergetico s);
    try (left; reflexivity).
  destruct (negb _); [left | right]; reflexivity.
Qed.





(** ** Ice slots *)

Section IceSlots.

Lemma others_all (l : list (option Product)) (k i : nat) :
  (i < k \/ k + length l <= i)%nat -> VariantB.selectedIdsFrom k i l = VariantB.filledIds l.
Proof.
  revert k. induction l as [| g l IH]; intros k H; [reflexivity |].
  unfold VariantB.selectedIdsFrom, VariantB.filledIds in *. simpl in *.
  assert (Hk : (k =? i)%nat = false) by (apply Nat.eqb_neq; lia).
  rewrite Hk. destruct g as [g |]; simpl; rewrite IH by lia; reflexivity.
Qed.

Lemma ids_app (l1 l2 : list (option Product)) :
  VariantB.filledIds (l1 ++ l2) = (VariantB.filledIds l1 ++ VariantB.filledIds l2)%list.
Proof.
  unfold VariantB.filledIds. induction l1 as [| [g |] l1 IH]; simpl; congruence.
Qed.

Lemma ids_replicate_None (n : nat) : VariantB.filledIds (replicate n None) = [].
Proof. unfold VariantB.filledIds. induction n; simpl; assumption || reflexivity. Qed.

Lemma ids_insert_In (l : list (option Product)) (i : nat)
      (product : option Product) (x : string) :
  In x (VariantB.filledIds (<[i := product]> l)) ->
  (exists p, product = Some p /\ x = Product.id p) \/ In x (VariantB.filledIds l).
Proof.
  revert i. unfold VariantB.filledIds.
  induction l as [| g l IH]; intros i H; [right; exact H |].
  destruct i as [| i]; simpl in H.
  - destruct product as [p |], g as [g |]; simpl in *;
      intuition eauto.
  - destruct g as [g |]; simpl in *.
    + destruct H as [H | H]; [right; left; exact H |].
      destruct (IH i H) as [Hp | Hin]; [left; exact Hp | right; right; exact Hin].
    + exact (IH i H).
Qed.

Lemma ids_tail_NoDup (g : option Product) (l : list (option Product)) :
  List.NoDup (VariantB.filledIds (g :: l)) -> List.NoDup (VariantB.filledIds l).
Proof.
  unfold VariantB.filledIds. destruct g; simpl; [| trivial].
  intros H. now apply List.NoDup_cons_iff in H.
Qed.

Lemma ids_insert_NoDup (l : list (option Product)) (k i : nat)
      (product : option Product) :
  List.NoDup (VariantB.filledIds l) ->
  (forall p, product = Some p -> ~ In (Product.id p) (VariantB.selectedIdsFrom k (k + i) l)) ->
  List.NoDup (VariantB.filledIds (<[i := product]> l)).
Proof.
  revert k i. induction l as [| g l IH]; intros k i Hnd Hfresh; [exact Hnd |].
  destruct i as [| i].
  - change (<[0%nat := product]> (g :: l)) with (product :: l).
    pose proof (ids_tail_NoDup _ _ Hnd) as Hl.
    destruct product as [p |]; [| exact Hl].
    unfold VariantB.filledIds. simpl. apply List.NoDup_cons_iff. split; [| exact Hl].
    specialize (Hfresh p eq_refl). unfold VariantB.selectedIdsFrom in Hfresh. simpl in Hfresh.
    rewrite Nat.add_0_r, Nat.eqb_refl, andb_false_r in Hfresh.
    fold (VariantB.selectedIdsFrom (S k) k l) in Hfresh. rewrite others_all in Hfresh by lia.
    exact Hfresh.
  - change (<[S i := product]> (g :: l)) with (g :: <[i := product]> l).
    assert (Hrec : List.NoDup (VariantB.filledIds (<[i := product]> l))).
    { apply (IH (S k) i); [exact (ids_tail_NoDup _ _ Hnd) |].
      intros p Hp Hin. apply (Hfresh p Hp).
      unfold VariantB.selectedIdsFrom in *. simpl.
      replace (k + S i)%nat with (S k + i)%nat by lia.
      destruct (negb (Js.isNull g) && negb (k =? S k + i)%nat);
        [right; exact Hin | exact Hin]. }
    destruct g as [g |]; [| exact Hrec].
    unfold VariantB.filledIds. simpl. apply List.NoDup_cons_iff. split; [| exact Hrec].
    intros Hin. apply ids_insert_In in Hin.
    unfold VariantB.filledIds in Hnd. simpl in Hnd. apply List.NoDup_cons_iff in Hnd.
    destruct Hin as [(p & Hp & Heq) | Hin]; [| tauto].
    apply (Hfresh p Hp). unfold VariantB.selectedIdsFrom. simpl.
    assert (Hk : (k =? k + S i)%nat = false) by (apply Nat.eqb_neq; lia).
    rewrite Hk. simpl. left. exact Heq.
Qed.

(** One call of [handleSelectGelo] keeps the filled slots distinct when the
    new product, if any, is not held by another slot. *)
Lemma handleSelectGelo_NoDup (index : nat) (product : option Product)
      (prev : list (option Product)) :
  List.NoDup (VariantB.filledIds prev) ->
  (forall p, product = Some p ->
             ~ In (Product.id p) (VariantB.selectedIds prev index)) ->
  List.NoDup (VariantB.filledIds (VariantB.handleSelectGelo index product prev)).
Proof.
  intros Hnd Hfresh. unfold VariantB.handleSelectGelo. cbv zeta.
  destruct (Nat.ltb_spec index (length prev)) as [Hlt | Hge].
  - apply (ids_insert_NoDup prev 0 index); assumption.
  - rewrite !ids_app, ids_replicate_None. simpl.
    destruct product as [p |]; unfold VariantB.filledIds at 2; simpl;
      [| rewrite app_nil_r; exact Hnd].
    apply List.NoDup_app; [exact Hnd | |].
    + apply List.NoDup_cons_iff. split; [intros [] | apply List.NoDup_nil].
    + intros x Hx [Hp | []]. subst x. apply (Hfresh p eq_refl).
      unfold VariantB.selectedIds, Js.filteri.
      fold (VariantB.selectedIdsFrom 0 index prev).
      rewrite others_all by lia. exact Hx.
Qed.

Lemma handleSelectGelo_length (index : nat) (product : option Product)
      (prev : list (option Product)) :
  (index < length prev)%nat ->
  length (VariantB.handleSelectGelo index product prev) = length prev.
Proof.
  intros H. unfold VariantB.handleSelectGelo. cbv zeta.
  apply Nat.ltb_lt in H. rewrite H. apply length_insert.
Qed.

Lemma ids_lookup_In (l : list (option Product)) (j : nat) (q : Product) :
  l !! j = Some (Some q) -> In (Product.id q) (VariantB.filledIds l).
Proof.
  revert j. unfold VariantB.filledIds. induction l as [| g l IH]; intros j H; [discriminate |].
  destruct j as [| j]; simpl in H.
  - injection H as ->. left. reflexivity.
  - destruct g; simpl; eauto.
Qed.

Lemma ids_NoDup_lookup (l : list (option Product)) (i j : nat) (p q : Product) :
  List.NoDup (VariantB.filledIds l) -> (i < j)%nat ->
  l !! i = Some (Some p) -> l !! j = Some (Some q) ->
  Product.id p <> Product.id q.
Proof.
  revert i j. induction l as [| g l IH]; intros i j Hnd Hlt Hi Hj; [discriminate |].
  destruct j as [| j]; [lia |]. simpl in Hj. destruct i as [| i]; simpl in Hi.
  - injection Hi as ->. unfold VariantB.filledIds in Hnd. simpl in Hnd.
    apply List.NoDup_cons_iff in Hnd. intros Heq. apply (proj1 Hnd).
    rewrite Heq. exact (ids_lookup_In _ _ _ Hj).
  - apply (IH i j); [exact (ids_tail_NoDup _ _ Hnd) | lia | assumption..].
Qed.

Variable products : list Product.
Variable categories : list Category.

Lemma reachable_slots (s : VariantB.Selection) :
  VariantB.reachable products categories s ->
  length (VariantB.selectedGelos s) = VariantB.ICE_COUNT /\
  List.NoDup (VariantB.filledIds (VariantB.selectedGelos s)).
Proof.
  induction 1 as [| s a Hr [IHlen IHnd] Hoff].
  - split; [reflexivity | apply List.NoDup_nil].
  - destruct a; simpl in *; try (split; assumption).
    + destruct Hoff as (Hidx & _). split.
      * rewrite handleSelectGelo_length; [exact IHlen | lia].
      * apply handleSelectGelo_NoDup; [exact IHnd | discriminate].
    + destruct Hoff as (Hidx & Hin).
      apply B_getAvailableGelosForSlot_In in Hin. split.
      * rewrite handleSelectGelo_length; [exact IHlen | lia].
      * apply handleSelectGelo_NoDup; [exact IHnd |].
        intros q [= <-]. tauto.
    + destruct (B_handleAddCombo_fst now s) as [-> | ->];
        [split; assumption | split; [reflexivity | apply List.NoDup_nil]].
    + split; [reflexivity | apply List.NoDup_nil].
Qed.

End IceSlots.

(** C2. In every state that the four-slot dialog can reach (each ice product
    having been picked from what its slot offered at the time), there are
    exactly four slots and two different filled slots never hold products
    with the same identifier. *)
Theorem C2_no_duplicate_ice (products : list Product)
        (categories : list Category) (s : VariantB.Selection) :
  VariantB.reachable products categories s ->
  length (VariantB.selectedGelos s) = VariantB.ICE_COUNT /\
  forall (i j : nat) (p q : Product),
    i <> j ->
    VariantB.selectedGelos s !! i = Some (Some p) ->
    VariantB.selectedGelos s !! j = Some (Some q) ->
    Product.id p <> Product.id q.
Proof.
  intros Hr. destruct (reachable_slots products categories s Hr) as (Hlen & Hnd).
  split; [exact Hlen |].
  intros i j p q Hij Hi Hj.
  destruct (Nat.lt_total i j) as [Hlt | [Heq | Hgt]]; [| contradiction |].
  - exact (ids_NoDup_lookup _ i j p q Hnd Hlt Hi Hj).
  - intros Heq. symmetry in Heq.
    exact (ids_NoDup_lookup _ j i q p Hnd Hgt Hj Hi Heq).
Qed.

Lemma C2_witness :
  VariantB.reachable Sample.products Sample.categories Sample.twoGelos /\
  VariantB.selectedGelos Sample.twoGelos
    = [Some Sample.geloCoco; Some Sample.geloMaca; None; None] /\
  Product.id Sample.geloCoco <> Product.id Sample.geloMaca.
Proof.
  assert (Hr : VariantB.reachable Sample.products Sample.categories
                                  Sample.twoGelos).
  { unfold Sample.twoGelos.
    apply VariantB.reachable_dispatch;
      [apply VariantB.reachable_dispatch; [apply VariantB.reachable_initial |] |];
      (split; [unfold VariantB.ICE_COUNT; lia | vm_compute; tauto]). }
  split; [exact Hr |]. split; [reflexivity |].
  apply (proj2 (C2_no_duplicate_ice _ _ _ Hr) 0%nat 1%nat);
    [lia | reflexivity | reflexivity].
Defined.

(** What the slots offer once slot 0 holds the coconut ice: slot 0 still
    lists it, the other slots do not. *)
Example picker_after_first_choice :
  let l := VariantB.selectedGelos
             (VariantB.dispatch (VariantB.clickGelo 0 Sample.geloCoco)
                                VariantB.initial) in
  VariantB.getAvailableGelosForSlot Sample.products l 0
    = [Sample.geloCoco; Sample.geloMaca; Sample.geloMelancia; Sample.geloMaracuja] /\
  VariantB.getAvailableGelosForSlot Sample.products l 1
    = [Sample.geloMaca; Sample.geloMelancia; Sample.geloMaracuja].
Proof. split; reflexivity. Qed.

(** Confirming the priced scenario: one record, the success toast, the
    request to close, and a reset selection. *)
Example confirm_scenario :
  VariantB.handleAddCombo 1700000000000 Sample.scenario =
  (VariantB.initial,
   [VariantB.addCombo
      {| VariantB.combo_id := "combo-1700000000000";
         VariantB.combo_destilado := Sample.gin;
         VariantB.combo_energetico := Sample.monsterCan;
         VariantB.combo_energeticoQuantity := 4;
         VariantB.combo_gelos :=
           [ {| VariantB.product := Sample.geloCoco; VariantB.quantity := 1 |};
             {| VariantB.product := Sample.geloMaca; VariantB.quantity := 1 |};
             {| VariantB.product := Sample.geloMelancia; VariantB.quantity := 1 |};
             {| VariantB.product := Sample.geloMaracuja; VariantB.quantity := 1 |} ];
         VariantB.combo_discountPercent := 5;
         VariantB.combo_originalTotal := 86;
         VariantB.combo_discountedTotal := 81.7 |};
    VariantB.toast VariantB.added;
    VariantB.onOpenChange false]).
Proof. reflexivity. Qed.

Example toggle_twice :
  toggle (toggle None Sample.gin) Sample.gin = None /\
  toggle (Some Sample.gin) Sample.ginBrinde = Some Sample.ginBrinde.
Proof. split; reflexivity. Qed.

(** * Further properties of the dialogs *)

(** ** What the four-slot dialog keeps true *)

Lemma toggle_Some (selected : option Product) (p q : Product) :
  toggle selected p = Some q -> q = p.
Proof.
  unfold toggle. destruct selected as [s |]; [| congruence].
  destruct (String.eqb _ _); congruence.
Qed.

Lemma insert_In {A} (l : list A) (i : nat) (x y : A) :
  In x (<[i := y]> l) -> x = y \/ In x l.
Proof.
  revert i. induction l as [| a l IH]; intros i H; [right; exact H |].
  destruct i as [| i]; simpl in H.
  - destruct H as [H | H]; [left; congruence | right; right; exact H].
  - destruct H as [H | H]; [right; left; exact H |].
    destruct (IH i H) as [E | E]; [left; exact E | right; right; exact E].
Qed.

Lemma replicate_In {A} (n : nat) (x y : A) : In x (replicate n y) -> x = y.
Proof. induction n as [| n IH]; simpl; [intros [] | intros [H | H]; auto]. Qed.

Lemma handleSelectGelo_In (index : nat) (product : option Product)
      (prev : list (option Product)) (p : Product) :
  In (Some p) (VariantB.handleSelectGelo index product prev) ->
  product = Some p \/ In (Some p) prev.
Proof.
  unfold VariantB.handleSelectGelo. cbv zeta.
  destruct (index <? length prev)%nat.
  - intros H. apply insert_In in H. destruct H as [H | H]; [left | right]; auto.
  - rewrite !in_app_iff. intros [H | [H | [H | []]]]; auto.
    apply replicate_In in H. discriminate.
Qed.

Lemma empty_slots_In (p : Product) :
  ~ In (Some p) (replicate VariantB.ICE_COUNT None).
Proof. intros H. apply replicate_In in H. discriminate. Qed.

Section KeptB.
Variable products : list Product.
Variable categories : list Category.

(** Whatever is selected was taken from the list shown for the current
    category, for the current pack option, and from the base ice list. *)
Lemma B_selected_from_lists (s : VariantB.Selection) :
  VariantB.reachable products categories s ->
  (forall p, VariantB.selectedDestilado s = Some p ->
     In p (VariantB.destiladosByCategory products categories
                                        (VariantB.selectedCategory s))) /\
  (forall p, VariantB.selectedEnergetico s = Some p ->
     In p (match VariantB.energeticoOption s with
           | VariantB.Opt2L => VariantB.energeticos2L products
           | VariantB.Opt4cans => VariantB.energeticosCans products
           end)) /\
  (forall p, In (Some p) (VariantB.selectedGelos s) ->
     In p (VariantB.gelosAvailable products)).
Proof.
  induction 1 as [| s a Hr (IHd & IHe & IHg) Hoff].
  - repeat split; try discriminate.
    intros p H. destruct (empty_slots_In p H).
  - destruct a; simpl in *.
    + repeat split; [discriminate | exact IHe | exact IHg].
    + repeat split; [| exact IHe | exact IHg].
      intros q Hq. apply toggle_Some in Hq. subst q. tauto.
    + repeat split; [exact IHd | exact IHe |].
      intros q Hq. apply handleSelectGelo_In in Hq.
      destruct Hq as [Hq | Hq]; [discriminate | auto].
    + repeat split; [exact IHd | exact IHe |].
      intros q Hq. apply handleSelectGelo_In in Hq.
      destruct Hq as [[= <-] | Hq]; [| auto].
      destruct Hoff as (_ & Hin).
      apply B_getAvailableGelosForSlot_In in Hin. tauto.
    + repeat split; [exact IHd | discriminate | exact IHg].
    + repeat split; [exact IHd | | exact IHg].
      intros q Hq. apply toggle_Some in Hq. subst q. exact Hoff.
    + destruct (B_handleAddCombo_fst now s) as [-> | ->].
      * repeat split; assumption.
      * repeat split; try discriminate.
        intros p H. destruct (empty_slots_In p H).
    + repeat split; try discriminate.
      intros p H. destruct (empty_slots_In p H).
Qed.

End KeptB.

Lemma B_selected_stock (products : list Product) (categories : list Category)
      (s : VariantB.Selection) :
  VariantB.reachable products categories s ->
  (forall d, VariantB.selectedDestilado s = Some d -> (0 < Product.stock d)%Z) /\
  (forall e, VariantB.selectedEnergetico s = Some e ->
     (VariantB.energeticoQuantity s <= Product.stock e)%Z).
Proof.
  intros Hr.
  destruct (B_selected_from_lists products categories s Hr) as (Hd & He & _).
  split.
  - intros d H. apply Hd, B_destiladosByCategory_In in H. tauto.
  - intros e H. apply He in H. unfold VariantB.energeticoQuantity.
    destruct (VariantB.energeticoOption s).
    + apply B_energeticos2L_In in H. intuition lia.
    + apply B_energeticosCans_In in H. intuition lia.
Qed.

(** X1. In every state that the four-slot dialog can reach, the selected
    spirit belongs to the chosen category: it is in the catalog,
    combo-eligible, active, in stock, and its category identifier is the
    chosen one.  (Choosing a category drops the spirit chosen before.) *)
Theorem B_spirit_of_chosen_category (products : list Product)
        (categories : list Category) (s : VariantB.Selection) (p : Product) :
  VariantB.reachable products categories s ->
  VariantB.selectedDestilado s = Some p ->
  In p products /\ Product.comboEligible p = true /\
  Product.isActive p = true /\ (0 < Product.stock p)%Z /\
  VariantB.selectedCategory s = Some (Product.categoryId p) /\
  Product.categoryId p <> "".
Proof.
  intros Hr Hp.
  destruct (B_selected_from_lists products categories s Hr) as (Hd & _ & _).
  specialize (Hd p Hp). apply B_destiladosByCategory_In in Hd.
  destruct Hd as (H1 & H2 & H3 & H4 & cid & Hsel & Hne & _ & Hcat).
  subst cid. tauto.
Qed.

(** X2. In every state that the four-slot dialog can reach, the selected
    energy drink is of the kind of the current pack option (2L marker for the
    bottle, none for the cans) and its stock covers the quantity that the
    combo takes: 1 bottle or [CAN_COUNT] cans. *)
Theorem B_energetico_matches_pack (products : list Product)
        (categories : list Category) (s : VariantB.Selection) (p : Product) :
  VariantB.reachable products categories s ->
  VariantB.selectedEnergetico s = Some p ->
  (VariantB.energeticoQuantity s <= Product.stock p)%Z /\
  isEnergetico (Product.name p) = true /\
  has2L p = match VariantB.energeticoOption s with
            | VariantB.Opt2L => true
            | VariantB.Opt4cans => false
            end.
Proof.
  intros Hr Hp.
  destruct (B_selected_from_lists products categories s Hr) as (_ & He & _).
  specialize (He p Hp). unfold VariantB.energeticoQuantity.
  destruct (VariantB.energeticoOption s).
  - apply B_energeticos2L_In in He. intuition lia.
  - apply B_energeticosCans_In in He. intuition lia.
Qed.

Ltac offered_now :=
  first [ exact I
        | split; [unfold VariantB.ICE_COUNT; lia | vm_compute; tauto]
        | vm_compute; tauto
        | exists ""; vm_compute; tauto ].

Lemma Sample2_fullB_reachable :
  VariantB.reachable Sample.products Sample.categories Sample2.fullB.
Proof.
  unfold Sample2.fullB, Sample.twoGelos.
  repeat (apply VariantB.reachable_dispatch; [| offered_now]).
  apply VariantB.reachable_initial.
Defined.

Lemma B_spirit_of_chosen_category_witness :
  VariantB.selectedDestilado Sample2.fullB = Some Sample.gin /\
  VariantB.selectedCategory Sample2.fullB
    = Some (Product.categoryId Sample.gin).
Proof.
  split; [reflexivity |].
  apply (B_spirit_of_chosen_category Sample.products Sample.categories
           Sample2.fullB Sample.gin Sample2_fullB_reachable eq_refl).
Defined.

Lemma B_energetico_matches_pack_witness :
  VariantB.selectedEnergetico Sample2.fullB = Some Sample.monsterCan /\
  (VariantB.energeticoQuantity Sample2.fullB
   <= Product.stock Sample.monsterCan)%Z.
Proof.
  split; [reflexivity |].
  apply (B_energetico_matches_pack Sample.products Sample.categories
           Sample2.fullB Sample.monsterCan Sample2_fullB_reachable eq_refl).
Defined.

(** ** The slots and what they offer *)

Lemma selectedIdsFrom_own (l : list (option Product)) (k i : nat) (p : Product) :
  List.NoDup (VariantB.filledIds l) -> l !! i = Some (Some p) ->
  ~ In (Product.id p) (VariantB.selectedIdsFrom k (k + i) l).
Proof.
  revert k i. induction l as [| g l IH]; intros k i Hnd Hi; [discriminate |].
  destruct i as [| i]; simpl in Hi.
  - injection Hi as ->. unfold VariantB.selectedIdsFrom. simpl.
    rewrite Nat.add_0_r, Nat.eqb_refl. simpl.
    fold (VariantB.selectedIdsFrom (S k) k l). rewrite others_all by lia.
    unfold VariantB.filledIds in Hnd. simpl in Hnd.
    apply List.NoDup_cons_iff in Hnd. tauto.
  - unfold VariantB.selectedIdsFrom. simpl.
    assert (Hk : (k =? k + S i)%nat = false) by (apply Nat.eqb_neq; lia).
    rewrite Hk. replace (k + S i)%nat with (S k + i)%nat by lia.
    fold (VariantB.selectedIdsFrom (S k) (S k + i) l).
    specialize (IH (S k) i (ids_tail_NoDup _ _ Hnd) Hi).
    destruct g as [g |]; simpl; [| exact IH].
    intros [Heq | Hin]; [| exact (IH Hin)].
    unfold VariantB.filledIds in Hnd. simpl in Hnd.
    apply List.NoDup_cons_iff in Hnd. apply (proj1 Hnd).
    rewrite Heq. exact (ids_lookup_In _ _ _ Hi).
Qed.

Lemma selectedIdsFrom_other (l : list (option Product)) (k i j : nat)
      (p : Product) :
  l !! i = Some (Some p) -> (k + i)%nat <> j ->
  In (Product.id p) (VariantB.selectedIdsFrom k j l).
Proof.
  revert k i. induction l as [| g l IH]; intros k i Hi Hne; [discriminate |].
  unfold VariantB.selectedIdsFrom. simpl.
  fold (VariantB.selectedIdsFrom (S k) j l).
  destruct i as [| i]; simpl in Hi.
  - injection Hi as ->. simpl.
    assert (Hk : (k =? j)%nat = false) by (apply Nat.eqb_neq; lia).
    rewrite Hk. left. reflexivity.
  - assert (Hin : In (Product.id p) (VariantB.selectedIdsFrom (S k) j l))
      by (apply (IH (S k) i Hi); lia).
    destruct (negb (Js.isNull g) && negb (k =? j)%nat); [right |]; exact Hin.
Qed.

Lemma lookup_In {A} (l : list A) (i : nat) (x : A) : l !! i = Some x -> In x l.
Proof.
  revert i. induction l as [| a l IH]; intros i H; [discriminate |].
  destruct i as [| i]; simpl in H; [left; congruence | right; eauto].
Qed.

(** X3. In every state that the four-slot dialog can reach, the product held
    by a slot is still in the list offered for that slot, and in the list
    offered for no other slot. *)
Theorem B_slot_choice_offered_only_there (products : list Product)
        (categories : list Category) (s : VariantB.Selection)
        (i : nat) (p : Product) :
  VariantB.reachable products categories s ->
  VariantB.selectedGelos s !! i = Some (Some p) ->
  In p (VariantB.getAvailableGelosForSlot products (VariantB.selectedGelos s) i) /\
  forall j, j <> i ->
    ~ In p (VariantB.getAvailableGelosForSlot products (VariantB.selectedGelos s) j).
Proof.
  intros Hr Hi.
  destruct (reachable_slots products categories s Hr) as (_ & Hnd).
  destruct (B_selected_from_lists products categories s Hr) as (_ & _ & Hg).
  split.
  - apply B_getAvailableGelosForSlot_In. split.
    + apply Hg. exact (lookup_In _ _ _ Hi).
    + unfold VariantB.selectedIds, Js.filteri.
      exact (selectedIdsFrom_own _ 0 i p Hnd Hi).
  - intros j Hj Hin. apply B_getAvailableGelosForSlot_In in Hin.
    apply (proj2 Hin). unfold VariantB.selectedIds, Js.filteri.
    apply (selectedIdsFrom_other _ 0 i j p Hi). simpl. congruence.
Qed.

Lemma B_slot_choice_offered_only_there_witness :
  VariantB.selectedGelos Sample2.fullB !! 2%nat = Some (Some Sample.geloMelancia) /\
  In Sample.geloMelancia
     (VariantB.getAvailableGelosForSlot Sample.products
        (VariantB.selectedGelos Sample2.fullB) 2).
Proof.
  split; [reflexivity |].
  apply (B_slot_choice_offered_only_there Sample.products Sample.categories
           Sample2.fullB 2 Sample.geloMelancia Sample2_fullB_reachable eq_refl).
Defined.

Lemma nonNull_length_le (l : list (option Product)) :
  (length (VariantB.nonNull l) <= length l)%nat.
Proof. induction l as [| [g |] l IH]; simpl; lia. Qed.

Lemma nonNull_full (l : list (option Product)) :
  length (VariantB.nonNull l) = length l <->
  forall i, (i < length l)%nat -> exists p, l !! i = Some (Some p).
Proof.
  induction l as [| g l IH]; [split; [intros _ i Hi; simpl in Hi; lia | reflexivity] |].
  destruct g as [g |]; simpl.
  - split.
    + intros H i Hi. destruct i as [| i]; [exists g; reflexivity |].
      simpl. apply IH; lia.
    + intros H. f_equal. apply IH. intros i Hi. apply (H (S i)). lia.
  - pose proof (nonNull_length_le l) as Hle. split; [lia |].
    intros H. destruct (H 0%nat) as (p & Hp); [lia | discriminate].
Qed.

(** X4. In every state that the four-slot dialog can reach, the selection is
    complete exactly when a spirit and an energy drink are selected and each
    of the four slots holds a product. *)
Theorem B_complete_iff_all_filled (products : list Product)
        (categories : list Category) (s : VariantB.Selection) :
  VariantB.reachable products categories s ->
  (VariantB.isComplete s = true <->
   (exists d, VariantB.selectedDestilado s = Some d) /\
   (exists e, VariantB.selectedEnergetico s = Some e) /\
   forall i, (i < VariantB.ICE_COUNT)%nat ->
             exists p, VariantB.selectedGelos s !! i = Some (Some p)).
Proof.
  intros Hr.
  destruct (reachable_slots products categories s Hr) as (Hlen & _).
  unfold VariantB.isComplete, VariantB.validGelosCount.
  rewrite !andb_true_iff, !negb_true_iff, Nat.eqb_eq, <- Hlen, nonNull_full.
  destruct (VariantB.selectedDestilado s), (VariantB.selectedEnergetico s);
    simpl; split.
  all: try (intros ((? & ?) & ?); discriminate).
  all: try (intros ((? & ?) & (? & ?) & ?); discriminate).
  - intros (_ & H). eauto.
  - intros (_ & _ & H). auto.
Qed.

Lemma B_complete_iff_all_filled_witness :
  VariantB.isComplete Sample2.fullB = true /\
  VariantB.isComplete Sample.twoGelos = false.
Proof.
  split.
  - apply (B_complete_iff_all_filled Sample.products Sample.categories
             Sample2.fullB Sample2_fullB_reachable).
    split; [eexists; reflexivity |]. split; [eexists; reflexivity |].
    intros i Hi. unfold VariantB.ICE_COUNT in Hi.
    destruct i as [| [| [| [| i]]]]; try lia; eexists; reflexivity.
  - reflexivity.
Defined.

Lemma filledIds_In (l : list (option Product)) (x : string) :
  In x (VariantB.filledIds l) -> exists p, In (Some p) l /\ Product.id p = x.
Proof.
  unfold VariantB.filledIds. induction l as [| [g |] l IH]; simpl.
  - intros [].
  - intros [H | H]; [exists g; auto |].
    destruct (IH H) as (p & Hp & Hx). exists p. auto.
  - intros H. destruct (IH H) as (p & Hp & Hx). exists p. auto.
Qed.

(** X5. The four-slot combo can only be completed when the catalog has at
    least four ice products to offer: in every reachable complete state the
    four slots hold products of the base ice list with four different
    identifiers, so that list has at least [ICE_COUNT] entries. *)
Theorem B_complete_needs_four_ice (products : list Product)
        (categories : list Category) (s : VariantB.Selection) :
  VariantB.reachable products categories s ->
  VariantB.isComplete s = true ->
  List.NoDup (map Product.id (VariantB.nonNull (VariantB.selectedGelos s))) /\
  incl (VariantB.nonNull (VariantB.selectedGelos s))
       (VariantB.gelosAvailable products) /\
  (VariantB.ICE_COUNT <= length (VariantB.gelosAvailable products))%nat.
Proof.
  intros Hr Hc.
  destruct (reachable_slots products categories s Hr) as (_ & Hnd).
  destruct (B_selected_from_lists products categories s Hr) as (_ & _ & Hg).
  assert (Hincl : incl (VariantB.nonNull (VariantB.selectedGelos s))
                       (VariantB.gelosAvailable products)).
  { intros p Hp. apply Hg. clear -Hp.
    induction (VariantB.selectedGelos s) as [| [g |] l IH]; simpl in *;
      [contradiction | | auto].
    destruct Hp as [-> | Hp]; auto. }
  split; [exact Hnd |]. split; [exact Hincl |].
  unfold VariantB.isComplete, VariantB.validGelosCount in Hc.
  rewrite !andb_true_iff, Nat.eqb_eq in Hc. destruct Hc as (_ & Hc).
  rewrite <- Hc, <- (length_map Product.id), <- (length_map Product.id (VariantB.gelosAvailable products)).
  apply List.NoDup_incl_length; [exact Hnd |].
  apply incl_map. exact Hincl.
Qed.

Lemma B_complete_needs_four_ice_witness :
  VariantB.isComplete Sample2.fullB = true /\
  (VariantB.ICE_COUNT <= length (VariantB.gelosAvailable Sample.products))%nat.
Proof.
  split; [reflexivity |].
  apply (B_complete_needs_four_ice Sample.products Sample.categories
           Sample2.fullB Sample2_fullB_reachable eq_refl).
Defined.

(** X6. Writing a slot and reading it back.  For a slot of the array,
    [handleSelectGelo] stores the given value in that slot, leaves every
    other slot and the length as they were, and clearing a slot that was
    empty before it was filled gives the old array back. *)
Theorem handleSelectGelo_lookup (index : nat) (product : option Product)
        (prev : list (option Product)) :
  (index < length prev)%nat ->
  VariantB.handleSelectGelo index product prev !! index = Some product /\
  (forall j, j <> index ->
     VariantB.handleSelectGelo index product prev !! j = prev !! j) /\
  length (VariantB.handleSelectGelo index product prev) = length prev /\
  (prev !! index = Some None ->
   VariantB.handleSelectGelo index None
     (VariantB.handleSelectGelo index product prev) = prev).
Proof.
  intros Hlt. pose proof (handleSelectGelo_length index product prev Hlt) as Hlen.
  assert (E : forall x l, (index < length l)%nat ->
                          VariantB.handleSelectGelo index x l = <[index := x]> l).
  { intros x l H. unfold VariantB.handleSelectGelo. cbv zeta.
    apply Nat.ltb_lt in H. now rewrite H. }
  repeat split.
  - rewrite E by exact Hlt. now apply list_lookup_insert_eq.
  - intros j Hj. rewrite E by exact Hlt. apply list_lookup_insert_ne. congruence.
  - exact Hlen.
  - intros Hempty. rewrite (E None) by (rewrite Hlen; exact Hlt).
    rewrite E by exact Hlt. rewrite list_insert_insert_eq.
    now apply list_insert_id.
Qed.

Lemma handleSelectGelo_lookup_witness :
  VariantB.handleSelectGelo 1 (Some Sample.geloMaca)
    (VariantB.selectedGelos VariantB.initial) !! 1%nat
  = Some (Some Sample.geloMaca).
Proof.
  apply (handleSelectGelo_lookup 1 (Some Sample.geloMaca)
           (VariantB.selectedGelos VariantB.initial)).
  vm_compute. lia.
Defined.

(** ** Confirming *)

Lemma B_isComplete_true (s : VariantB.Selection) :
  VariantB.isComplete s = true <->
  exists d e, VariantB.selectedDestilado s = Some d /\
              VariantB.selectedEnergetico s = Some e /\
              length (VariantB.nonNull (VariantB.selectedGelos s))
                = VariantB.ICE_COUNT.
Proof.
  unfold VariantB.isComplete, VariantB.validGelosCount.
  rewrite !andb_true_iff, !negb_true_iff, Nat.eqb_eq.
  destruct (VariantB.selectedDestilado s) as [d |],
           (VariantB.selectedEnergetico s) as [e |]; simpl; split.
  all: try (intros ((? & ?) & ?); discriminate).
  all: try (intros (? & ? & ? & ? & ?); discriminate).
  - intros (_ & H). eauto.
  - intros (? & ? & _ & _ & H). auto.
Qed.

Lemma A_isComplete_true (s : VariantA.Selection) :
  VariantA.isComplete s = true <->
  exists d e g, VariantA.selectedDestilado s = Some d /\
                VariantA.selectedEnergetico s = Some e /\
                VariantA.selectedGelo s = Some g.
Proof.
  unfold VariantA.isComplete.
  destruct (VariantA.selectedDestilado s) as [d |],
           (VariantA.selectedEnergetico s) as [e |],
           (VariantA.selectedGelo s) as [g |]; simpl; split; intros H;
    try discriminate;
    try (destruct H as (? & ? & ? & ? & ? & ?); discriminate);
    try reflexivity.
  repeat eexists.
Qed.

Lemma B_handleAddCombo_complete (now : N) (s : VariantB.Selection)
      (d e : Product) :
  VariantB.selectedDestilado s = Some d ->
  VariantB.selectedEnergetico s = Some e ->
  length (VariantB.nonNull (VariantB.selectedGelos s)) = VariantB.ICE_COUNT ->
  VariantB.handleAddCombo now s =
  (VariantB.initial,
   [VariantB.addCombo
      {| VariantB.combo_id := "combo-" ++ Js.decimal now;
         VariantB.combo_destilado := d;
         VariantB.combo_energetico := e;
         VariantB.combo_energeticoQuantity := VariantB.energeticoQuantity s;
         VariantB.combo_gelos :=
           map (fun g => {| VariantB.product := g; VariantB.quantity := 1 |})
               (VariantB.nonNull (VariantB.selectedGelos s));
         VariantB.combo_discountPercent := 5;
         VariantB.combo_originalTotal := original (VariantB.calculateTotal s);
         VariantB.combo_discountedTotal := discounted (VariantB.calculateTotal s) |};
    VariantB.toast VariantB.added;
    VariantB.onOpenChange false]).
Proof.
  intros Hd He Hl. unfold VariantB.handleAddCombo. rewrite Hd, He, Hl.
  reflexivity.
Qed.

Lemma A_handleAddCombo_complete (now : N) (s : VariantA.Selection)
      (d e g : Product) :
  VariantA.selectedDestilado s = Some d ->
  VariantA.selectedEnergetico s = Some e ->
  VariantA.selectedGelo s = Some g ->
  VariantA.handleAddCombo now s =
  (VariantA.initial,
   [VariantA.addCombo
      {| VariantA.combo_id := "combo-" ++ Js.decimal now;
         VariantA.combo_destilado := d;
         VariantA.combo_energetico := e;
         VariantA.combo_energeticoQuantity := VariantA.energeticoQuantity s;
         VariantA.combo_gelo := g;
         VariantA.combo_geloQuantity := VariantA.geloQuantity s;
         VariantA.combo_discountPercent := 5;
         VariantA.combo_originalTotal := original (VariantA.calculateTotal s);
         VariantA.combo_discountedTotal := discounted (VariantA.calculateTotal s) |};
    VariantA.toast VariantA.added;
    VariantA.onOpenChange false]).
Proof.
  intros Hd He Hg. unfold VariantA.handleAddCombo. rewrite Hd, He, Hg.
  reflexivity.
Qed.

Lemma A_handleAddCombo_incomplete (now : N) (s : VariantA.Selection) :
  VariantA.isComplete s = false ->
  VariantA.handleAddCombo now s = (s, [VariantA.toast VariantA.rejection]).
Proof.
  intros H. apply A_isComplete_false in H. unfold VariantA.handleAddCombo.
  destruct (VariantA.selectedDestilado s), (VariantA.selectedEnergetico s),
    (VariantA.selectedGelo s); try reflexivity;
    destruct H as [H | [H | H]]; discriminate.
Qed.

Lemma B_handleAddCombo_incomplete (now : N) (s : VariantB.Selection) :
  VariantB.isComplete s = false ->
  VariantB.handleAddCombo now s = (s, [VariantB.toast VariantB.rejection]).
Proof.
  intros H. apply B_isComplete_false in H. unfold VariantB.handleAddCombo.
  destruct (VariantB.selectedDestilado s), (VariantB.selectedEnergetico s);
    try reflexivity.
  destruct H as [H | [H | H]]; try discriminate.
  apply Nat.eqb_neq in H. rewrite H. reflexivity.
Qed.

(** X7. The confirm handler and the confirm button agree, in both dialogs:
    the handler calls [addCombo] exactly in the states in which the button is
    enabled, that is when the selection is complete. *)
Theorem handleAddCombo_accepts_iff_enabled :
  (forall (now : N) (s : VariantA.Selection),
      (exists r, In (VariantA.addCombo r) (snd (VariantA.handleAddCombo now s)))
      <-> VariantA.isComplete s = true) /\
  (forall (now : N) (s : VariantB.Selection),
      (exists r, In (VariantB.addCombo r) (snd (VariantB.handleAddCombo now s)))
      <-> VariantB.isComplete s = true).
Proof.
  split; intros now s.
  - destruct (VariantA.isComplete s) eqn:Hc.
    + split; [reflexivity | intros _].
      apply A_isComplete_true in Hc. destruct Hc as (d & e & g & Hd & He & Hg).
      rewrite (A_handleAddCombo_complete now s d e g Hd He Hg).
      eexists. left. reflexivity.
    + rewrite (A_handleAddCombo_incomplete now s Hc). split; [| discriminate].
      intros (r & [H | []]). discriminate.
  - destruct (VariantB.isComplete s) eqn:Hc.
    + split; [reflexivity | intros _].
      apply B_isComplete_true in Hc. destruct Hc as (d & e & Hd & He & Hl).
      rewrite (B_handleAddCombo_complete now s d e Hd He Hl).
      eexists. left. reflexivity.
    + rewrite (B_handleAddCombo_incomplete now s Hc). split; [| discriminate].
      intros (r & [H | []]). discriminate.
Qed.

(** X8. What the four-slot dialog hands to the cart.  From a reachable
    complete selection the confirm handler makes three calls, [addCombo] with
    one record, the success toast and the request to close, and leaves the
    initial selection.  The record has four ice lines of quantity 1 for four
    different products, and the stock of every product of the record covers
    the quantity of its line. *)
Theorem B_confirm_complete (products : list Product)
        (categories : list Category) (now : N) (s : VariantB.Selection) :
  VariantB.reachable products categories s ->
  VariantB.isComplete s = true ->
  exists r,
    VariantB.handleAddCombo now s =
      (VariantB.initial,
       [VariantB.addCombo r; VariantB.toast VariantB.added;
        VariantB.onOpenChange false]) /\
    VariantB.selectedDestilado s = Some (VariantB.combo_destilado r) /\
    VariantB.selectedEnergetico s = Some (VariantB.combo_energetico r) /\
    (0 < Product.stock (VariantB.combo_destilado r))%Z /\
    (VariantB.combo_energeticoQuantity r
     <= Product.stock (VariantB.combo_energetico r))%Z /\
    length (VariantB.combo_gelos r) = VariantB.ICE_COUNT /\
    List.NoDup (map (fun l => Product.id (VariantB.product l))
                    (VariantB.combo_gelos r)) /\
    (forall l, In l (VariantB.combo_gelos r) ->
       VariantB.quantity l = 1%Z /\
       (VariantB.quantity l <= Product.stock (VariantB.product l))%Z) /\
    VariantB.combo_discountPercent r = 5%Z /\
    VariantB.combo_discountedTotal r
      = (VariantB.combo_originalTotal r * 0.95)%float.
Proof.
  intros Hr Hc. apply B_isComplete_true in Hc.
  destruct Hc as (d & e & Hd & He & Hl).
  destruct (reachable_slots products categories s Hr) as (_ & Hnd).
  destruct (B_selected_from_lists products categories s Hr) as (_ & _ & Hg).
  eexists. split; [exact (B_handleAddCombo_complete now s d e Hd He Hl) |].
  simpl. repeat split.
  - exact Hd.
  - exact He.
  - exact (proj1 (B_selected_stock products categories s Hr) d Hd).
  - exact (proj2 (B_selected_stock products categories s Hr) e He).
  - rewrite length_map. exact Hl.
  - rewrite map_map. simpl. exact Hnd.
  - apply in_map_iff in H. destruct H as (g & <- & _). reflexivity.
  - apply in_map_iff in H. destruct H as (g & <- & Hin). simpl.
    assert (Hs : In (Some g) (VariantB.selectedGelos s)).
    { clear -Hin. induction (VariantB.selectedGelos s) as [| [x |] l IH];
        simpl in *; [contradiction | | auto].
      destruct Hin as [-> | Hin]; auto. }
    apply Hg, B_gelosAvailable_In in Hs. tauto.
  - apply B_discounted.
Qed.

Lemma B_confirm_complete_witness :
  VariantB.isComplete Sample2.fullB = true /\
  exists r,
    VariantB.handleAddCombo 1700000000000 Sample2.fullB =
      (VariantB.initial,
       [VariantB.addCombo r; VariantB.toast VariantB.added;
        VariantB.onOpenChange false]) /\
    length (VariantB.combo_gelos r) = VariantB.ICE_COUNT.
Proof.
  split; [reflexivity |].
  destruct (B_confirm_complete Sample.products Sample.categories
              1700000000000 Sample2.fullB Sample2_fullB_reachable eq_refl)
    as (r & H & _ & _ & _ & _ & Hl & _).
  exists r. split; assumption.
Defined.

Lemma decimal_inj (n m : N) : Js.decimal n = Js.decimal m -> n = m.
Proof.
  unfold Js.decimal. intros H.
  assert (Hnn : forall k, N.to_uint k <> Decimal.Nil).
  { intros [| p]; [discriminate | apply DecimalPos.Unsigned.to_uint_nonnil]. }
  apply (f_equal NilZero.uint_of_string) in H.
  rewrite !NilZero.usu in H by apply Hnn.
  injection H as H. now apply DecimalN.Unsigned.to_uint_inj.
Qed.

(** X9. The identifier of a combo is made from the clock alone.  In both
    dialogs two records handed to the cart have the same identifier exactly
    when their handlers read the same value of [Date.now()], whatever the
    selections were. *)
Theorem combo_id_same_iff_same_time :
  (forall (now1 now2 : N) (s1 s2 t1 t2 : VariantA.Selection)
          (r1 r2 : VariantA.ComboRecord) (rest1 rest2 : list VariantA.Call),
      VariantA.handleAddCombo now1 s1 = (t1, VariantA.addCombo r1 :: rest1) ->
      VariantA.handleAddCombo now2 s2 = (t2, VariantA.addCombo r2 :: rest2) ->
      (VariantA.combo_id r1 = VariantA.combo_id r2 <-> now1 = now2)) /\
  (forall (now1 now2 : N) (s1 s2 t1 t2 : VariantB.Selection)
          (r1 r2 : VariantB.ComboRecord) (rest1 rest2 : list VariantB.Call),
      VariantB.handleAddCombo now1 s1 = (t1, VariantB.addCombo r1 :: rest1) ->
      VariantB.handleAddCombo now2 s2 = (t2, VariantB.addCombo r2 :: rest2) ->
      (VariantB.combo_id r1 = VariantB.combo_id r2 <-> now1 = now2)).
Proof.
  assert (Hid : forall n m, "combo-" ++ Js.decimal n = "combo-" ++ Js.decimal m
                            <-> n = m).
  { intros n m. split; [| now intros ->]. simpl. intros [= H].
    now apply decimal_inj. }
  split; intros now1 now2 s1 s2 t1 t2 r1 r2 rest1 rest2 H1 H2.
  - assert (E : forall now s t r rest,
               VariantA.handleAddCombo now s = (t, VariantA.addCombo r :: rest) ->
               VariantA.combo_id r = "combo-" ++ Js.decimal now).
    { intros now s t r rest H. destruct (VariantA.isComplete s) eqn:Hc.
      - apply A_isComplete_true in Hc. destruct Hc as (d & e & g & Hd & He & Hg).
        rewrite (A_handleAddCombo_complete now s d e g Hd He Hg) in H.
        injection H as _ <- _. reflexivity.
      - rewrite (A_handleAddCombo_incomplete now s Hc) in H. discriminate. }
    rewrite (E _ _ _ _ _ H1), (E _ _ _ _ _ H2). apply Hid.
  - assert (E : forall now s t r rest,
               VariantB.handleAddCombo now s = (t, VariantB.addCombo r :: rest) ->
               VariantB.combo_id r = "combo-" ++ Js.decimal now).
    { intros now s t r rest H. destruct (VariantB.isComplete s) eqn:Hc.
      - apply B_isComplete_true in Hc. destruct Hc as (d & e & Hd & He & Hl).
        rewrite (B_handleAddCombo_complete now s d e Hd He Hl) in H.
        injection H as _ <- _. reflexivity.
      - rewrite (B_handleAddCombo_incomplete now s Hc) in H. discriminate. }
    rewrite (E _ _ _ _ _ H1), (E _ _ _ _ _ H2). apply Hid.
Qed.

Lemma combo_id_same_iff_same_time_witness :
  exists r1 r2 rest1 rest2,
    VariantB.handleAddCombo 1700000000000 Sample2.fullB
      = (VariantB.initial, VariantB.addCombo r1 :: rest1) /\
    VariantB.handleAddCombo 1700000000001 Sample.scenario
      = (VariantB.initial, VariantB.addCombo r2 :: rest2) /\
    VariantB.combo_id r1 <> VariantB.combo_id r2.
Proof.
  do 4 eexists. split; [reflexivity |]. split; [reflexivity |].
  intros H.
  apply (proj2 combo_id_same_iff_same_time 1700000000000%N 1700000000001%N
           Sample2.fullB Sample.scenario _ _ _ _ _ _ eq_refl eq_refl) in H.
  discriminate.
Defined.

(** X10. Without a usable category there are no spirits to choose from: the
    list is empty when no category is chosen, when the chosen identifier is
    the empty string, and when no category of the catalog has the chosen
    identifier. *)
Theorem B_destilados_empty_without_category (products : list Product)
        (categories : list Category) (selected : option string) :
  (selected = None \/ selected = Some "" \/
   exists cid, selected = Some cid /\
               forall c, In c categories -> Category.id c <> cid) ->
  VariantB.destiladosByCategory products categories selected = [].
Proof.
  intros H.
  destruct (VariantB.destiladosByCategory products categories selected)
    as [| p l] eqn:E; [reflexivity | exfalso].
  assert (Hin : In p (VariantB.destiladosByCategory products categories selected))
    by (rewrite E; left; reflexivity).
  apply B_destiladosByCategory_In in Hin.
  destruct Hin as (_ & _ & _ & _ & cid & Hsel & Hne & (c & Hc & Hid) & _).
  destruct H as [-> | [-> | (cid' & -> & Hall)]].
  - discriminate.
  - injection Hsel as <-. contradiction.
  - injection Hsel as <-. exact (Hall c Hc Hid).
Qed.

Lemma B_destilados_empty_without_category_witness :
  VariantB.destiladosByCategory Sample.products Sample.categories
    (Some "c-rum") = [].
Proof.
  apply B_destilados_empty_without_category. right. right.
  exists "c-rum". split; [reflexivity |].
  intros c Hc. vm_compute in Hc.
  destruct Hc as [<- | [<- | [<- | []]]]; discriminate.
Defined.

(** ** The search box *)






Lemma filteredProducts_In (products : list Product) (search : string)
      (p : Product) :
  In p (ProductSelector.filteredProducts products search) -> In p products.
Proof.
  unfold ProductSelector.filteredProducts.
  destruct (String.eqb _ _); [trivial |]. cbv zeta. rewrite filter_In. tauto.
Qed.



(** ** What the single-ice-field dialog keeps true *)

Lemma A_handleAddCombo_fst (now : N) (s : VariantA.Selection) :
  fst (VariantA.handleAddCombo now s) = s \/
  fst (VariantA.handleAddCombo now s) = VariantA.initial.
Proof.
  unfold VariantA.handleAddCombo.
  destruct (VariantA.selectedDestilado s), (VariantA.selectedEnergetico s),
    (VariantA.selectedGelo s); auto.
Qed.

Lemma A_selected_from_lists (products : list Product)
      (categories : list Category) (s : VariantA.Selection) :
  DialogA.reachable products categories s ->
  (forall p, VariantA.selectedDestilado s = Some p ->
     In p (VariantA.destilados products categories)) /\
  (forall p, VariantA.selectedEnergetico s = Some p ->
     In p (match VariantA.energeticoOption s with
           | VariantA.Opt2L => VariantA.energeticos2L products
           | VariantA.Opt5cans => VariantA.energeticosCans products
           end)) /\
  (forall p, VariantA.selectedGelo s = Some p -> In p (VariantA.gelos products)).
Proof.
  induction 1 as [| s a Hr (IHd & IHe & IHg) Hoff].
  - repeat split; discriminate.
  - destruct a; simpl in *.
    + repeat split; [| exact IHe | exact IHg].
      intros q Hq. apply toggle_Some in Hq. subst q.
      destruct Hoff as (search & Hin). exact (filteredProducts_In _ _ _ Hin).
    + repeat split; [exact IHd | discriminate | exact IHg].
    + repeat split; [exact IHd | | exact IHg].
      intros q Hq. apply toggle_Some in Hq. subst q.
      destruct Hoff as (search & Hin). exact (filteredProducts_In _ _ _ Hin).
    + repeat split; [exact IHd | exact IHe |].
      intros q Hq. apply toggle_Some in Hq. subst q.
      destruct Hoff as (search & Hin). exact (filteredProducts_In _ _ _ Hin).
    + destruct (A_handleAddCombo_fst now s) as [-> | ->];
        repeat split; solve [assumption | discriminate].
    + repeat split; discriminate.
Qed.

Lemma A_selected_stock (products : list Product) (categories : list Category)
      (s : VariantA.Selection) :
  DialogA.reachable products categories s ->
  (forall d, VariantA.selectedDestilado s = Some d -> (0 < Product.stock d)%Z) /\
  (forall e, VariantA.selectedEnergetico s = Some e ->
     (VariantA.energeticoQuantity s <= Product.stock e)%Z) /\
  (forall g, VariantA.selectedGelo s = Some g ->
     (VariantA.geloQuantity s <= Product.stock g)%Z).
Proof.
  intros Hr. destruct (A_selected_from_lists _ _ _ Hr) as (Hd & He & Hg).
  repeat split.
  - intros d H. apply Hd, A_destilados_In in H. tauto.
  - intros e H. apply He in H. unfold VariantA.energeticoQuantity.
    destruct (VariantA.energeticoOption s).
    + apply A_energeticos2L_In in H. intuition lia.
    + apply A_energeticosCans_In in H. intuition lia.
  - intros g H. unfold VariantA.geloQuantity. rewrite H.
    apply Hg, A_gelos_In in H. destruct H as (_ & _ & _ & _ & H).
    unfold VariantA.getGeloQuantity.
    destruct (VariantA.isLargeIceBag (Product.name g)); exact H.
Qed.


Ltac offered_A := first [ exact I | exists ""; vm_compute; tauto ].

Lemma Sample2_fullA_reachable :
  DialogA.reachable Sample.products Sample.categories Sample2.fullA.
Proof.
  unfold Sample2.fullA.
  repeat (apply DialogA.reachable_dispatch; [| offered_A]).
  apply DialogA.reachable_initial.
Defined.


(** X13. What the single-ice-field dialog hands to the cart.  From a
    reachable complete selection the confirm handler makes three calls,
    [addCombo] with one record, the success toast and the request to close,
    and leaves the initial selection.  The record carries the three selected
    products, quantities covered by their stock, the 5 percent mark and a
    discounted total that is the original total times 0.95. *)
Theorem A_confirm_complete (products : list Product)
        (categories : list Category) (now : N) (s : VariantA.Selection) :
  DialogA.reachable products categories s ->
  VariantA.isComplete s = true ->
  exists r,
    VariantA.handleAddCombo now s =
      (VariantA.initial,
       [VariantA.addCombo r; VariantA.toast VariantA.added;
        VariantA.onOpenChange false]) /\
    VariantA.selectedDestilado s = Some (VariantA.combo_destilado r) /\
    VariantA.selectedEnergetico s = Some (VariantA.combo_energetico r) /\
    VariantA.selectedGelo s = Some (VariantA.combo_gelo r) /\
    (0 < Product.stock (VariantA.combo_destilado r))%Z /\
    (VariantA.combo_energeticoQuantity r
     <= Product.stock (VariantA.combo_energetico r))%Z /\
    (VariantA.combo_geloQuantity r <= Product.stock (VariantA.combo_gelo r))%Z /\
    VariantA.combo_discountPercent r = 5%Z /\
    VariantA.combo_discountedTotal r
      = (VariantA.combo_originalTotal r * 0.95)%float.
Proof.
  intros Hr Hc. apply A_isComplete_true in Hc.
  destruct Hc as (d & e & g & Hd & He & Hg).
  destruct (A_selected_stock products categories s Hr) as (Sd & Se & Sg).
  eexists. split; [exact (A_handleAddCombo_complete now s d e g Hd He Hg) |].
  simpl. repeat split; auto. apply A_discounted.
Qed.

Lemma A_confirm_complete_witness :
  VariantA.isComplete Sample2.fullA = true /\
  exists r,
    VariantA.handleAddCombo 1700000000000 Sample2.fullA =
      (VariantA.initial,
       [VariantA.addCombo r; VariantA.toast VariantA.added;
        VariantA.onOpenChange false]) /\
    VariantA.combo_geloQuantity r = 1%Z /\
    VariantA.combo_energeticoQuantity r = 5%Z.
Proof.
  split; [reflexivity |].
  destruct (A_confirm_complete Sample.products Sample.categories
              1700000000000 Sample2.fullA Sample2_fullA_reachable eq_refl)
    as (r & H & _).
  exists r. split; [exact H |].
  vm_compute in H. injection H as <-. split; reflexivity.
Defined.

(** ** The carousel *)

Lemma next_in_range (n : nat) (z : Z) :
  n <> 0%nat -> (0 <= z < Z.of_nat n)%Z ->
  Carousel.next n (Carousel.Num z)
  = Carousel.Num (if (z + 1 =? Z.of_nat n)%Z then 0 else z + 1).
Proof.
  intros Hn Hz. unfold Carousel.next.
  apply Nat.eqb_neq in Hn. rewrite Hn. f_equal.
  rewrite Z.rem_mod_nonneg by lia.
  destruct (Z.eqb_spec (z + 1) (Z.of_nat n)) as [-> | Hne].
  - apply Z_mod_same_full.
  - apply Z.mod_small. lia.
Qed.

(** X14. The arrows of the carousel, on a list of [n] drinks with [n] not 0
    and an index inside the list.  Both arrows give an index inside the list:
    "next" moves one step to the right and from the last drink to the first,
    "previous" one step to the left and from the first drink to the last.
    Each arrow undoes the other. *)
Theorem carousel_arrows (n : nat) (z : Z) :
  n <> 0%nat -> (0 <= z < Z.of_nat n)%Z ->
  Carousel.next n (Carousel.Num z)
    = Carousel.Num (if (z + 1 =? Z.of_nat n)%Z then 0 else z + 1) /\
  Carousel.prev n (Carousel.Num z)
    = Carousel.Num (if (z =? 0)%Z then Z.of_nat n - 1 else z - 1) /\
  Carousel.prev n (Carousel.next n (Carousel.Num z)) = Carousel.Num z /\
  Carousel.next n (Carousel.prev n (Carousel.Num z)) = Carousel.Num z.
Proof.
  intros Hn Hz. split; [exact (next_in_range n z Hn Hz) |].
  split; [unfold Carousel.prev; destruct (z =? 0)%Z; reflexivity |]. split.
  - rewrite (next_in_range n z Hn Hz). unfold Carousel.prev.
    destruct (Z.eqb_spec (z + 1) (Z.of_nat n)) as [E | E]; simpl.
    + f_equal. lia.
    + destruct (Z.eqb_spec (z + 1) 0); [lia |]. f_equal. lia.
  - unfold Carousel.prev.
    destruct (Z.eqb_spec z 0) as [-> | E].
    + rewrite next_in_range by lia.
      replace (Z.of_nat n - 1 + 1 =? Z.of_nat n)%Z with true
        by (symmetry; apply Z.eqb_eq; lia).
      reflexivity.
    + rewrite next_in_range by lia.
      replace (z - 1 + 1 =? Z.of_nat n)%Z with false
        by (symmetry; apply Z.eqb_neq; lia).
      f_equal. lia.
Qed.

Lemma carousel_arrows_witness :
  Carousel.next 3 (Carousel.Num 2) = Carousel.Num 0 /\
  Carousel.prev 3 (Carousel.Num 0) = Carousel.Num 2.
Proof.
  split.
  - apply (carousel_arrows 3 2); lia.
  - apply (carousel_arrows 3 0); lia.
Defined.

Lemma next_iter (n k : nat) (z : Z) :
  n <> 0%nat -> (0 <= z < Z.of_nat n)%Z ->
  Nat.iter k (Carousel.next n) (Carousel.Num z)
  = Carousel.Num ((z + Z.of_nat k) mod Z.of_nat n).
Proof.
  intros Hn Hz. induction k as [| k IH].
  - simpl. rewrite Z.add_0_r, Z.mod_small by lia. reflexivity.
  - simpl Nat.iter. rewrite IH. unfold Carousel.next.
    apply Nat.eqb_neq in Hn. rewrite Hn. f_equal.
    pose proof (Z.mod_pos_bound (z + Z.of_nat k) (Z.of_nat n)) as Hb.
    rewrite Z.rem_mod_nonneg by lia.
    rewrite Z.add_mod_idemp_l by lia. f_equal. lia.
Qed.

(** X15. Auto-play goes round.  On a list of [n] drinks, [k] steps of the
    timer (or presses of "next") from an index inside the list lead to the
    index plus [k] modulo [n]; after [n] steps the carousel shows the drink
    it started from. *)
Theorem carousel_full_turn (n k : nat) (z : Z) :
  n <> 0%nat -> (0 <= z < Z.of_nat n)%Z ->
  Nat.iter k (Carousel.next n) (Carousel.Num z)
    = Carousel.Num ((z + Z.of_nat k) mod Z.of_nat n) /\
  Nat.iter n (Carousel.next n) (Carousel.Num z) = Carousel.Num z.
Proof.
  intros Hn Hz. split; [exact (next_iter n k z Hn Hz) |].
  rewrite (next_iter n n z Hn Hz). f_equal.
  rewrite <- (Z.mul_1_l (Z.of_nat n)) at 1.
  rewrite Z.mod_add by lia. apply Z.mod_small. lia.
Qed.

Lemma carousel_full_turn_witness :
  Nat.iter 4 (Carousel.next 4) (Carousel.Num 1) = Carousel.Num 1.
Proof. apply (carousel_full_turn 4 0 1); lia. Defined.

Lemma specialCategories_In (categories : list Category) (c : Category) :
  In c (Carousel.specialCategories categories) <->
  In c categories /\ Category.isActive c = true /\
  exists name, In name Carousel.specialCategoryNames /\
               Js.toLowerCase (Category.name c) = Js.toLowerCase name.
Proof.
  unfold Carousel.specialCategories.
  rewrite filter_In, andb_true_iff, some_true.
  split.
  - intros (H & Ha & name & Hn & He). apply String.eqb_eq in He. eauto 8.
  - intros (H & Ha & name & Hn & He). repeat split; auto.
    exists name. split; [exact Hn | now apply String.eqb_eq].
Qed.

Lemma specialDrinks_In (products : list Product) (selected : option string)
      (p : Product) :
  In p (Carousel.specialDrinks products selected) <->
  In p products /\ Product.isActive p = true /\
  selected = Some (Product.categoryId p) /\ Product.categoryId p <> "".
Proof.
  unfold Carousel.specialDrinks. rewrite filter_In.
  destruct (Product.isActive p); simpl; [| intuition discriminate].
  destruct selected as [sel |]; simpl; [| intuition discriminate].
  destruct (String.eqb_spec sel "") as [-> | Hne].
  - split; [intuition discriminate |].
    intros (_ & _ & [= E] & Hn). congruence.
  - rewrite String.eqb_eq. split.
    + intros (H & E). subst sel. auto.
    + intros (H & _ & [= E] & _). auto.
Qed.

Section KeptCarousel.
Variable products : list Product.
Variable categories : list Category.

Lemma setSelectedCategory_inside (c : option string) (s : Carousel.State) :
  Carousel.indexInside products s -> Carousel.indexInside products (Carousel.setSelectedCategory c s).
Proof.
  intros (z & Hz & H0 & Hlt). unfold Carousel.indexInside, Carousel.drinks. simpl.
  case_bool_decide as E.
  - exists z. rewrite E. auto.
  - exists 0%Z. auto with zarith.
Qed.

Lemma carousel_kept (s : Carousel.State) :
  Carousel.reachable products categories s ->
  Carousel.indexInside products s /\ Carousel.categoryOffered categories s.
Proof.
  induction 1 as [| s a Hr (IHi & IHc) Hoff].
  - split; [exists 0%Z; simpl; auto with zarith | intros cid; discriminate].
  - unfold Carousel.categoryOffered in *. destruct a; simpl in *.
    + unfold Carousel.setOpen. destruct o.
      * unfold Carousel.autoSelect. simpl.
        destruct (Carousel.specialCategories categories) as [| first l] eqn:E;
          [split; assumption |].
        destruct (VariantB.falsy (Carousel.selectedCategory s));
          [| split; assumption].
        split.
        -- apply (setSelectedCategory_inside _
                    {| Carousel.isOpen := true;
                       Carousel.selectedCategory := Carousel.selectedCategory s;
                       Carousel.currentIndex := Carousel.currentIndex s;
                       Carousel.isAutoPlaying := Carousel.isAutoPlaying s |}).
           exact IHi.
        -- simpl. intros cid [= <-]. exists first. split; [left |]; reflexivity.
      * split; [exists 0%Z; simpl; auto with zarith | simpl; discriminate].
    + split.
      * exact (setSelectedCategory_inside _ s IHi).
      * intros cid [= <-]. eauto.
    + split; assumption.
    + split; [| exact IHc]. destruct IHi as (z & Hz & H0 & Hlt).
      unfold Carousel.indexInside, Carousel.drinks in *. simpl. rewrite Hz. simpl.
      destruct (Z.eqb_spec z 0).
      * eexists. split; [reflexivity |]. lia.
      * eexists. split; [reflexivity |]. lia.
    + split; [| exact IHc]. destruct IHi as (z & Hz & H0 & Hlt).
      unfold Carousel.indexInside, Carousel.drinks in *. simpl. rewrite Hz.
      assert (Hz' : (0 <= z < Z.of_nat
                (length (Carousel.specialDrinks products
                           (Carousel.selectedCategory s))))%Z) by lia.
      rewrite (next_in_range _ z Hoff Hz').
      eexists. split; [reflexivity |].
      match goal with |- context [(?a =? ?b)%Z] => destruct (Z.eqb_spec a b) end; lia.
    + split; [| exact IHc]. unfold Carousel.indexInside, Carousel.drinks in *. simpl.
      eexists. split; [reflexivity |]. lia.
    + split; [| exact IHc]. destruct IHi as (z & Hz & H0 & Hlt).
      destruct Hoff as (_ & Hlen).
      unfold Carousel.indexInside, Carousel.drinks in *. simpl. rewrite Hz.
      assert (Hz' : (0 <= z < Z.of_nat
                (length (Carousel.specialDrinks products
                           (Carousel.selectedCategory s))))%Z) by lia.
      assert (Hn : length (Carousel.specialDrinks products
                             (Carousel.selectedCategory s)) <> 0%nat) by lia.
      rewrite (next_in_range _ z Hn Hz').
      eexists. split; [reflexivity |].
      match goal with |- context [(?a =? ?b)%Z] => destruct (Z.eqb_spec a b) end; lia.
Qed.

End KeptCarousel.


Lemma Sample2_advanced_reachable :
  Carousel.reachable Sample2.products Sample2.categories Sample2.advanced.
Proof.
  unfold Sample2.advanced, Sample2.opened.
  apply Carousel.reachable_dispatch;
    [apply Carousel.reachable_dispatch; [apply Carousel.reachable_initial |] |].
  - exact I.
  - vm_compute. discriminate.
Defined.


(** X17. The special-drinks dialog shows special drinks only.  In every
    state that it can reach, each drink on screen is an active product of the
    catalog whose category is the selected one, and that category is an
    active category of the catalog named, up to case, in the fixed list of
    special categories.  Nothing is on screen while no category is
    selected. *)
Theorem carousel_shows_special_only (products : list Product)
        (categories : list Category) (s : Carousel.State) :
  Carousel.reachable products categories s ->
  (Carousel.selectedCategory s = None -> Carousel.drinks products s = []) /\
  forall p, In p (Carousel.drinks products s) ->
    In p products /\ Product.isActive p = true /\
    Carousel.selectedCategory s = Some (Product.categoryId p) /\
    exists c, In c categories /\ Category.isActive c = true /\
              Category.id c = Product.categoryId p /\
              exists name, In name Carousel.specialCategoryNames /\
                Js.toLowerCase (Category.name c) = Js.toLowerCase name.
Proof.
  intros Hr. destruct (carousel_kept products categories s Hr) as (_ & Hc).
  split.
  - intros Hnone. unfold Carousel.drinks.
    destruct (Carousel.specialDrinks products (Carousel.selectedCategory s))
      as [| p l] eqn:E; [reflexivity | exfalso].
    assert (Hin : In p (Carousel.specialDrinks products
                          (Carousel.selectedCategory s)))
      by (rewrite E; left; reflexivity).
    apply specialDrinks_In in Hin. rewrite Hnone in Hin.
    destruct Hin as (_ & _ & Hin & _). discriminate.
  - intros p Hp. unfold Carousel.drinks in Hp. apply specialDrinks_In in Hp.
    destruct Hp as (H1 & H2 & H3 & _). repeat (split; [assumption |]).
    destruct (Hc _ H3) as (c & Hin & Hid).
    apply specialCategories_In in Hin. destruct Hin as (Hcat & Hact & Hname).
    exists c. auto.
Qed.

Lemma carousel_shows_special_only_witness :
  Carousel.drinks Sample2.products Sample2.advanced
    = [Sample2.caipiLimao; Sample2.caipiMorango; Sample2.caipiLata] /\
  Carousel.selectedCategory Sample2.advanced
    = Some (Product.categoryId Sample2.caipiLata).
Proof.
  split; [reflexivity |].
  apply (proj2 (carousel_shows_special_only Sample2.products Sample2.categories
                  Sample2.advanced Sample2_advanced_reachable)
               Sample2.caipiLata).
  vm_compute. tauto.
Defined.

(** X18. The "Adicionar" button never ends in the insufficient-stock toast.
    The button is on a card only when the product is not marked sold out and
    the cart holds none of it; pressed then, [handleAddToCart] hands the
    product to the cart.  Conversely the handler refuses only a product that
    is not prepared and either out of stock or already in the cart. *)
Theorem add_button_always_adds (items : list SpecialDrinks.CartItem)
        (product : Product) :
  (Carousel.showsAddButton items product = true ->
   SpecialDrinks.handleAddToCart items product
     = [SpecialDrinks.addItem product;
        SpecialDrinks.toast (SpecialDrinks.added product)]) /\
  (SpecialDrinks.handleAddToCart items product
     = [SpecialDrinks.toast (SpecialDrinks.insufficient product)] ->
   Product.isPrepared product = false /\
   (Carousel.isOutOfStock product = true \/
    (0 < SpecialDrinks.getCartQuantity items (Product.id product))%Z)).
Proof.
  unfold Carousel.showsAddButton, Carousel.isOutOfStock,
    SpecialDrinks.handleAddToCart, SpecialDrinks.getCartQuantity.
  set (q := SpecialDrinks.quantityOrZero _).
  destruct (Product.isPrepared product); simpl.
  - split; [reflexivity | discriminate].
  - destruct (Z.leb_spec (Product.stock product) 0) as [H0 | H0]; simpl.
    + split; [discriminate | auto].
    + destruct (Z.leb_spec (Product.stock product) q) as [Hq | Hq]; simpl.
      * split; [| intros _; split; [reflexivity | right; lia]].
        rewrite Z.eqb_eq. lia.
      * split; [reflexivity | discriminate].
Qed.

Lemma add_button_always_adds_witness :
  Carousel.showsAddButton [] Sample2.caipiLata = true /\
  SpecialDrinks.handleAddToCart [] Sample2.caipiLata
    = [SpecialDrinks.addItem Sample2.caipiLata;
       SpecialDrinks.toast (SpecialDrinks.added Sample2.caipiLata)].
Proof.
  split; [reflexivity |].
  apply (proj1 (add_button_always_adds [] Sample2.caipiLata)). reflexivity.
Defined.
